(** * Control-board logic of the portfolio page

    A shallow embedding of the arithmetic and state logic found in
    [App.tsx], [Knob.tsx], [VerticalSlider.tsx], [DialNavigation.tsx],
    [ProjectContent.tsx] and [DisplayScreen.tsx].

    JavaScript numbers are modelled as exact rationals extended with
    [+Infinity], [-Infinity] and [NaN]: every operation follows the
    ECMAScript rules for the non-finite values and for division by zero,
    while rounding of finite results is idealised away (so an equation
    proved here holds exactly over the rationals).  The model has a single
    zero, read as [+0]. *)

From Stdlib Require Import ZArith QArith Qround Qminmax Lia Lqa List String Bool.
From Stdlib Require Import Decimal DecimalString.
Import ListNotations.

Open Scope Q_scope.

(* ================================================================== *)
(** ** JavaScript numbers *)
(* ================================================================== *)

Module JS.

Inductive number : Type :=
| Fin (q : Q)
| PInf
| NInf
| NaN.

(** Identity of number values: finite values are compared as rationals. *)
Definition eqn (x y : number) : Prop :=
  match x, y with
  | Fin a, Fin b => a == b
  | PInf, PInf | NInf, NInf | NaN, NaN => True
  | _, _ => False
  end.

(** Sign of a number that is not [NaN]. *)
Definition sign (x : number) : comparison :=
  match x with
  | Fin a => a ?= 0
  | PInf => Gt
  | NInf => Lt
  | NaN => Eq
  end.

Definition sign_mul (c d : comparison) : comparison :=
  match c, d with
  | Eq, _ | _, Eq => Eq
  | Gt, Gt | Lt, Lt => Gt
  | Gt, Lt | Lt, Gt => Lt
  end.

(** The infinity of a given sign; a zero sign stands for an undefined
    form ([0 * Infinity], [0 / 0]). *)
Definition inf_of_sign (c : comparison) : number :=
  match c with
  | Gt => PInf
  | Lt => NInf
  | Eq => NaN
  end.

Definition is_zero (q : Q) : bool := Qeq_bool q 0.

Definition neg (x : number) : number :=
  match x with
  | Fin a => Fin (- a)
  | PInf => NInf
  | NInf => PInf
  | NaN => NaN
  end.

Definition add (x y : number) : number :=
  match x, y with
  | NaN, _ | _, NaN => NaN
  | Fin a, Fin b => Fin (a + b)
  | PInf, NInf | NInf, PInf => NaN
  | PInf, _ | _, PInf => PInf
  | NInf, _ | _, NInf => NInf
  end.

Definition sub (x y : number) : number := add x (neg y).

Definition mul (x y : number) : number :=
  match x, y with
  | NaN, _ | _, NaN => NaN
  | Fin a, Fin b => Fin (a * b)
  | _, _ => inf_of_sign (sign_mul (sign x) (sign y))
  end.

(** [x / y]: a finite number over zero is an infinity of the sign of the
    numerator, [0 / 0] is [NaN]. *)
Definition div (x y : number) : number :=
  match x, y with
  | NaN, _ | _, NaN => NaN
  | Fin a, Fin b => if is_zero b then inf_of_sign (a ?= 0) else Fin (a / b)
  | Fin _, _ => Fin 0
  | _, Fin b => inf_of_sign (sign_mul (sign x) (if is_zero b then Gt else b ?= 0))
  | _, _ => NaN
  end.

(** Truncation toward zero. *)
Definition Qtrunc (q : Q) : Z := Z.quot (Qnum q) (Zpos (Qden q)).

(** [x % y]: the remainder has the sign of the dividend. *)
Definition rem (x y : number) : number :=
  match x, y with
  | Fin a, Fin b =>
      if is_zero b then NaN else Fin (a - b * inject_Z (Qtrunc (a / b)))
  | Fin a, (PInf | NInf) => Fin a
  | _, _ => NaN
  end.

Definition Qlt_bool (a b : Q) : bool := negb (Qle_bool b a).

(** [x < y]; every comparison with [NaN] is false. *)
Definition ltb (x y : number) : bool :=
  match x, y with
  | NaN, _ | _, NaN => false
  | Fin a, Fin b => Qlt_bool a b
  | NInf, NInf | PInf, _ | _, NInf => false
  | _, _ => true
  end.

Definition gtb (x y : number) : bool := ltb y x.

(** [x >= y]. *)
Definition geb (x y : number) : bool :=
  match x, y with
  | NaN, _ | _, NaN => false
  | _, _ => negb (ltb x y)
  end.

(** [x === y] on numbers. *)
Definition strict_eqb (x y : number) : bool :=
  match x, y with
  | Fin a, Fin b => Qeq_bool a b
  | PInf, PInf | NInf, NInf => true
  | _, _ => false
  end.

Definition of_Z (z : Z) : number := Fin (inject_Z z).
Definition of_nat (n : nat) : number := of_Z (Z.of_nat n).

Module Math.

Definition max (x y : number) : number :=
  match x, y with
  | NaN, _ | _, NaN => NaN
  | _, _ => if ltb x y then y else x
  end.

Definition min (x y : number) : number :=
  match x, y with
  | NaN, _ | _, NaN => NaN
  | _, _ => if ltb y x then y else x
  end.

Definition ceil (x : number) : number :=
  match x with
  | Fin a => of_Z (Qceiling a)
  | _ => x
  end.

Definition floor (x : number) : number :=
  match x with
  | Fin a => of_Z (Qfloor a)
  | _ => x
  end.

(** Nearest integer, halves toward [+Infinity]. *)
Definition round (x : number) : number :=
  match x with
  | Fin a => of_Z (Qfloor (a + (1 # 2)))
  | _ => x
  end.

End Math.

(** Is the finite value a whole number, and which one. *)
Definition as_integer (x : number) : option Z :=
  match x with
  | Fin a => if Qeq_bool a (inject_Z (Qfloor a)) then Some (Qfloor a) else None
  | _ => None
  end.

(** [arr[i]]: the element at a whole, in-range index, [undefined]
    ([None]) for any other number. *)
Definition index {A : Type} (arr : list A) (i : number) : option A :=
  match as_integer i with
  | Some z => if (z <? 0)%Z then None else nth_error arr (Z.to_nat z)
  | None => None
  end.

(** Decimal text of a number, as string conversion gives it for whole
    numbers and the non-finite values.  It is applied only to results of
    [Math.ceil] and [Math.round] and to array indices, which are whole. *)
Definition toString (x : number) : string :=
  match x with
  | Fin a => NilZero.string_of_int (Z.to_int (Qfloor a))
  | PInf => "Infinity"
  | NInf => "-Infinity"
  | NaN => "NaN"
  end.

End JS.

Declare Scope js_scope.
Delimit Scope js_scope with js.
Bind Scope js_scope with JS.number.
Infix "+" := JS.add : js_scope.
Infix "-" := JS.sub : js_scope.
Infix "*" := JS.mul : js_scope.
Infix "/" := JS.div : js_scope.
Infix "%%" := JS.rem (at level 40, left associativity) : js_scope.
Infix "<?" := JS.ltb : js_scope.
Infix ">?" := JS.gtb : js_scope.
Infix ">=?" := JS.geb : js_scope.
Infix "===" := JS.strict_eqb (at level 70, no associativity) : js_scope.
Notation "- x" := (JS.neg x) : js_scope.
Infix "=n=" := JS.eqn (at level 70, no associativity).

Import JS.

(** The expression [Math.max(0, Math.min(100, x))], which the knob and the
    slider both write out in place. *)
Definition clamp100 (x : number) : number :=
  Math.max (Fin 0) (Math.min (Fin 100) x).

(* ================================================================== *)
(** ** Knob.tsx *)
(* ================================================================== *)

Module Knob.

(** Convert value (0-100) to rotation angle (0 to 360 degrees). *)
Definition valueToAngle (val : number) : number :=
  ((val / Fin 100) * Fin 360)%js.

(** Convert angle (0-360) to value (0-100). *)
Definition angleToValue (angle : number) : number :=
  let normalized := (angle %% Fin 360)%js in
  let normalized :=
    if (normalized <? Fin 0)%js then (normalized + Fin 360)%js
    else normalized in
  ((normalized / Fin 360) * Fin 100)%js.

(** The wheel handler: the value handed to [onChange]. *)
Definition handleWheel (deltaY value : number) : number :=
  let delta := if (deltaY >? Fin 0)%js then Fin (-2) else Fin 2 in
  let newValue := Math.max (Fin 0) (Math.min (Fin 100) (value + delta)%js) in
  newValue.

(** The tail of the drag handler, after [Math.atan2] has produced
    [angleDeg] in degrees: turn the zero reference to twelve o'clock and
    convert to a value. *)
Definition handleMouseMove_from (angleDeg : number) : number :=
  let angleDeg := (angleDeg + Fin 90)%js in
  let angleDeg :=
    if (angleDeg <? Fin 0)%js then (angleDeg + Fin 360)%js else angleDeg in
  angleToValue angleDeg.

End Knob.

(* ================================================================== *)
(** ** VerticalSlider.tsx *)
(* ================================================================== *)

Module VerticalSlider.

(** [updateValue]: the percentage handed to [onChange] for a pointer at
    [clientY] over a track whose rectangle has the given bottom and
    height. *)
Definition updateValue (rect_bottom rect_height clientY : number) : number :=
  let percentage :=
    Math.max (Fin 0)
      (Math.min (Fin 100)
         (((rect_bottom - clientY) / rect_height) * Fin 100)%js) in
  percentage.

End VerticalSlider.

(* ================================================================== *)
(** ** ToggleSwitch.tsx *)
(* ================================================================== *)

Module ToggleSwitch.

(** The button's click handler: the argument of the call to [onChange]. *)
Definition onClick (value : bool) : bool := negb value.

End ToggleSwitch.

(* ================================================================== *)
(** ** App.tsx *)
(* ================================================================== *)

Module App.

Inductive ViewMode : Type := hero | breakdown.

Record ControlState : Type := mkControlState {
  architectureEmphasis : number;
  productDesignEmphasis : number;
  softwareEmphasis : number;
  viewMode : ViewMode;
  showMetadata : bool;
  detailDepth : number;
  timelineProgress : number
}.

(** [keyof ControlState]. *)
Inductive ControlKey : Type :=
| K_architectureEmphasis
| K_productDesignEmphasis
| K_softwareEmphasis
| K_viewMode
| K_showMetadata
| K_detailDepth
| K_timelineProgress.

(** The type of the field a key names. *)
Definition fieldType (key : ControlKey) : Type :=
  match key with
  | K_viewMode => ViewMode
  | K_showMetadata => bool
  | _ => number
  end.

(** [controls[key]]. *)
Definition get (key : ControlKey) (c : ControlState) : fieldType key :=
  match key with
  | K_architectureEmphasis => architectureEmphasis c
  | K_productDesignEmphasis => productDesignEmphasis c
  | K_softwareEmphasis => softwareEmphasis c
  | K_viewMode => viewMode c
  | K_showMetadata => showMetadata c
  | K_detailDepth => detailDepth c
  | K_timelineProgress => timelineProgress c
  end.

(** [updateControl]: [{ ...prev, [key]: value }]. *)
Definition updateControl (key : ControlKey)
  : fieldType key -> ControlState -> ControlState :=
  match key with
  | K_architectureEmphasis => fun value prev =>
      mkControlState value (productDesignEmphasis prev) (softwareEmphasis prev)
        (viewMode prev) (showMetadata prev) (detailDepth prev)
        (timelineProgress prev)
  | K_productDesignEmphasis => fun value prev =>
      mkControlState (architectureEmphasis prev) value (softwareEmphasis prev)
        (viewMode prev) (showMetadata prev) (detailDepth prev)
        (timelineProgress prev)
  | K_softwareEmphasis => fun value prev =>
      mkControlState (architectureEmphasis prev) (productDesignEmphasis prev)
        value (viewMode prev) (showMetadata prev) (detailDepth prev)
        (timelineProgress prev)
  | K_viewMode => fun value prev =>
      mkControlState (architectureEmphasis prev) (productDesignEmphasis prev)
        (softwareEmphasis prev) value (showMetadata prev) (detailDepth prev)
        (timelineProgress prev)
  | K_showMetadata => fun value prev =>
      mkControlState (architectureEmphasis prev) (productDesignEmphasis prev)
        (softwareEmphasis prev) (viewMode prev) value (detailDepth prev)
        (timelineProgress prev)
  | K_detailDepth => fun value prev =>
      mkControlState (architectureEmphasis prev) (productDesignEmphasis prev)
        (softwareEmphasis prev) (viewMode prev) (showMetadata prev) value
        (timelineProgress prev)
  | K_timelineProgress => fun value prev =>
      mkControlState (architectureEmphasis prev) (productDesignEmphasis prev)
        (softwareEmphasis prev) (viewMode prev) (showMetadata prev)
        (detailDepth prev) value
  end.

(** The initial [useState] value of [controls]. *)
Definition initialControls : ControlState :=
  {| architectureEmphasis := Fin 33.33;
     productDesignEmphasis := Fin 33.33;
     softwareEmphasis := Fin 33.33;
     viewMode := hero;
     showMetadata := false;
     detailDepth := Fin 100;
     timelineProgress := Fin 100 |}.

Inductive ProjectType : Type := about | project.

(** The fields of a project entry that the control logic reads. *)
Record Project : Type := mkProject {
  id : nat;
  title : string;
  type : ProjectType;
  hasTimeline : bool
}.


(** The application state: the two [useState] cells. *)
Record State : Type := mkState {
  activeProjectIndex : number;
  controls : ControlState
}.

Definition initialState : State :=
  {| activeProjectIndex := Fin 0; controls := initialControls |}.

Definition setActiveProjectIndex (i : number) (s : State) : State :=
  {| activeProjectIndex := i; controls := controls s |}.

Definition setControls (f : ControlState -> ControlState) (s : State) : State :=
  {| activeProjectIndex := activeProjectIndex s; controls := f (controls s) |}.

End App.

(* ================================================================== *)
(** ** DialNavigation.tsx *)
(* ================================================================== *)

Module DialNavigation.

(** The wheel listener on the dial container.  The result is the argument
    of the call to [onProjectChange], or [None] when the listener makes no
    call. *)
Definition handleWheel (isHovering : bool) (deltaY activeIndex : number)
  (projects_length : nat) : option number :=
  if isHovering then
    if (deltaY >? Fin 0)%js then
      (* Scroll down - always allow cycling forward *)
      Some ((activeIndex + Fin 1) %% of_nat projects_length)%js
    else
      (* Scroll up - stop at About Me (index 0) *)
      if (activeIndex >? Fin 0)%js then Some (activeIndex - Fin 1)%js
      else None
  else None.

(** The index after a wheel event: [onProjectChange] is
    [setActiveProjectIndex]. *)
Definition wheel (isHovering : bool) (deltaY : number) (projects_length : nat)
  (s : App.State) : App.State :=
  match handleWheel isHovering deltaY (App.activeProjectIndex s) projects_length with
  | Some i => App.setActiveProjectIndex i s
  | None => s
  end.

(** Rotation angle of the dial for the active index. *)
Definition getDialRotation (activeIdx total : number) : number :=
  let angleStep := (Fin 180 / (total - Fin 1))%js in
  let itemAngle := (Fin 90 - activeIdx * angleStep)%js in
  (- itemAngle)%js.

Inductive Discipline : Type := architecture | productDesign | software.

Definition disciplineNames (d : Discipline) : string :=
  match d with
  | architecture => "ARCH"
  | productDesign => "PROD"
  | software => "SOFT"
  end.

Definition handleKnobChange (discipline : Discipline) (value : number)
  : App.ControlState -> App.ControlState :=
  match discipline with
  | architecture => App.updateControl App.K_architectureEmphasis value
  | productDesign => App.updateControl App.K_productDesignEmphasis value
  | software => App.updateControl App.K_softwareEmphasis value
  end.

(** The LCD inputs held by the component: [activeControl] and
    [controlValue], each a string or [null]. *)
Record Readout : Type := mkReadout {
  activeControl : option string;
  controlValue : option string
}.

Definition handleKnobInteraction (discipline : Discipline) (value : number)
  (isInteracting : bool) : Readout :=
  if isInteracting then
    mkReadout (Some (disciplineNames discipline))
              (Some (toString (Math.round value) ++ "%")%string)
  else mkReadout None None.

Definition stages : list string :=
  ["CONCEPT"; "DEVELOP"; "REFINE"; "BUILD"; "FINAL"]%string.

(** The local [depth] of the slider handler. *)
Definition depth (value : number) : number :=
  Math.ceil ((value / Fin 100) * Fin 5)%js.

(** The local [stageIndex] of the slider handler. *)
Definition stageIndex (value : number) : number :=
  Math.floor ((value / Fin 100) * (of_nat (List.length stages) - Fin 1))%js.

Definition handleSliderInteraction (label : string) (value : number)
  (isInteracting : bool) : Readout :=
  if isInteracting then
    if String.eqb label "DETAIL" then
      mkReadout (Some label) (Some (toString (depth value) ++ "/5")%string)
    else
      mkReadout (Some label) (index stages (stageIndex value))
  else mkReadout None None.

(** The two toggle switches as the component wires them: the value each
    one is given and what its [onChange] does to the controls. *)
Definition heroToggleValue (controls : App.ControlState) : bool :=
  match App.viewMode controls with
  | App.hero => true
  | App.breakdown => false
  end.

Definition onHeroToggle (val : bool) : App.ControlState -> App.ControlState :=
  App.updateControl App.K_viewMode (if val then App.hero else App.breakdown).

Definition onMetaToggle (val : bool) : App.ControlState -> App.ControlState :=
  App.updateControl App.K_showMetadata val.

(** A click on the HERO VIEW switch, and on the META DATA switch. *)
Definition clickHeroView (controls : App.ControlState) : App.ControlState :=
  onHeroToggle (ToggleSwitch.onClick (heroToggleValue controls)) controls.

Definition clickMetaData (controls : App.ControlState) : App.ControlState :=
  onMetaToggle (ToggleSwitch.onClick (App.showMetadata controls)) controls.



End DialNavigation.

(* ================================================================== *)
(** ** ProjectContent.tsx *)
(* ================================================================== *)

Module ProjectContent.

Import App.

(** Column widths based on emphasis knobs. *)
Definition total (controls : ControlState) : number :=
  (architectureEmphasis controls + productDesignEmphasis controls
   + softwareEmphasis controls)%js.

Definition archWidth (controls : ControlState) : number :=
  ((architectureEmphasis controls / total controls) * Fin 100)%js.

Definition prodWidth (controls : ControlState) : number :=
  ((productDesignEmphasis controls / total controls) * Fin 100)%js.

Definition softWidth (controls : ControlState) : number :=
  ((softwareEmphasis controls / total controls) * Fin 100)%js.

(** Opacities based on emphasis. *)
Definition archOpacity (controls : ControlState) : number :=
  (Fin 0.4 + (architectureEmphasis controls / Fin 100) * Fin 0.6)%js.

Definition prodOpacity (controls : ControlState) : number :=
  (Fin 0.4 + (productDesignEmphasis controls / Fin 100) * Fin 0.6)%js.

Definition softOpacity (controls : ControlState) : number :=
  (Fin 0.4 + (softwareEmphasis controls / Fin 100) * Fin 0.6)%js.

(** What content to show based on detail depth. *)
Definition showOverview (controls : ControlState) : bool :=
  (detailDepth controls >=? Fin 20)%js.

Definition showColumns (controls : ControlState) : bool :=
  (detailDepth controls >=? Fin 40)%js.

Definition showProcessImages (controls : ControlState) : bool :=
  (detailDepth controls >=? Fin 60)%js.

Definition showSpecs (controls : ControlState) : bool :=
  (detailDepth controls >=? Fin 80)%js.

(** Timeline stage labels. *)
Definition getTimelineStage (controls : ControlState) : string :=
  let progress := timelineProgress controls in
  if (progress <? Fin 20)%js then "CONCEPT"
  else if (progress <? Fin 40)%js then "DEVELOPMENT"
  else if (progress <? Fin 60)%js then "REFINEMENT"
  else if (progress <? Fin 80)%js then "BUILD"
  else "FINAL".

Definition isAboutPage (project : Project) : bool :=
  match type project with
  | App.about => true
  | App.project => false
  end.

(** The text of the stage badge, [None] when it is not rendered. *)
Definition stageIndicator (project : Project) (controls : ControlState)
  : option string :=
  if hasTimeline project && negb (timelineProgress controls === Fin 100)%js
  then Some ("STAGE: " ++ getTimelineStage controls)%string
  else None.

(** The two amounts of the image filter, [grayscale] and [brightness];
    [None] stands for the filter ['none']. *)
Definition imageFilter (project : Project) (controls : ControlState)
  : option (number * number) :=
  if hasTimeline project then
    Some (((Fin 100 - timelineProgress controls) / Fin 100)%js,
          (Fin 0.8 + (timelineProgress controls / Fin 100) * Fin 0.2)%js)
  else None.

(** The opacity the overview block, the row of columns and each column
    animate to. *)
Definition overviewOpacity (controls : ControlState) : number :=
  if showOverview controls then Fin 1 else Fin 0.3.

Definition columnsOpacity (controls : ControlState) : number :=
  if showColumns controls then Fin 1 else Fin 0.2.

Definition archColumnOpacity (controls : ControlState) : number :=
  if showColumns controls then archOpacity controls else Fin 0.2.

Definition prodColumnOpacity (controls : ControlState) : number :=
  if showColumns controls then prodOpacity controls else Fin 0.2.

Definition softColumnOpacity (controls : ControlState) : number :=
  if showColumns controls then softOpacity controls else Fin 0.2.

(** Whether the process documentation and the technical specifications
    are rendered. *)
Definition processDocumentationShown (project : Project)
  (controls : ControlState) : bool :=
  showProcessImages controls && negb (isAboutPage project).

Definition specificationsShown (project : Project)
  (controls : ControlState) : bool :=
  showSpecs controls && negb (isAboutPage project).

End ProjectContent.

(* ================================================================== *)
(** ** DisplayScreen.tsx *)
(* ================================================================== *)

Module DisplayScreen.

Record DisciplineValues : Type := mkDisciplineValues {
  architecture : number;
  productDesign : number;
  software : number
}.

Record Props : Type := mkProps {
  currentProjectIndex : number;
  currentProjectTitle : string;
  activeControl : option string;
  controlValue : option string;
  disciplineValues : option DisciplineValues
}.

(** The two [useState] cells of the component. *)
Record State : Type := mkState {
  idleMode : bool;
  idleCycle : number
}.

Definition initialState : State := {| idleMode := false; idleCycle := Fin 0 |}.

(** Truthiness of a string-or-null: neither [null] nor empty. *)
Definition truthy (s : option string) : bool :=
  match s with
  | Some t => negb (String.eqb t "")
  | None => false
  end.

(** What happens to the component between renders.  The durations of the
    timers are not part of the model: an event is the moment a callback
    runs. *)
Inductive Event : Type :=
| ActiveControlEffect   (* the effect on [activeControl] runs *)
| IdleTimeout           (* the 2000ms [setTimeout] callback runs *)
| CycleTick.            (* the 2000ms [setInterval] callback runs *)

(** The timeout exists only while [activeControl] is falsy, the interval
    only while [idleMode] holds; a callback of a timer that does not exist
    never runs. *)
Definition step (p : Props) (e : Event) (s : State) : State :=
  match e with
  | ActiveControlEffect =>
      if truthy (activeControl p) then mkState false (idleCycle s) else s
  | IdleTimeout =>
      if truthy (activeControl p) then s else mkState true (idleCycle s)
  | CycleTick =>
      if idleMode s then mkState (idleMode s) ((idleCycle s + Fin 1) %% Fin 3)%js
      else s
  end.

Record Content : Type := mkContent {
  line1 : string;
  line2 : string
}.

Record DisciplineEntry : Type := mkEntry {
  name : string;
  value : number
}.

Definition projectCode (p : Props) : Content :=
  mkContent
    (if (currentProjectIndex p === Fin 0)%js then "AM"
     else "0" ++ toString (currentProjectIndex p))%string
    "".

(** [None] stands for the [TypeError] raised by reading [name] of
    [undefined]. *)
Definition getDisplayContent (p : Props) (s : State) : option Content :=
  (* Show active control info *)
  if truthy (activeControl p) && truthy (controlValue p) then
    match activeControl p, controlValue p with
    | Some a, Some v => Some (mkContent a v)
    | _, _ => None
    end
  (* Show project number/code *)
  else if negb (idleMode s) then Some (projectCode p)
  else
    (* Idle mode - cycle through disciplines *)
    match disciplineValues p with
    | Some dv =>
        let disciplines :=
          [ mkEntry "ARCH" (architecture dv);
            mkEntry "PROD" (productDesign dv);
            mkEntry "SOFT" (software dv) ] in
        match index disciplines (idleCycle s) with
        | Some current =>
            Some (mkContent (name current)
                    (toString (Math.round (value current)) ++ "%")%string)
        | None => None
        end
    | None => Some (projectCode p)
    end.

End DisplayScreen.

(* ================================================================== *)
(** ** Notions used to state properties *)
(* ================================================================== *)

(** The number is a whole number that indexes a list of the given
    length. *)
Definition validIndex (len : nat) (x : number) : bool :=
  match as_integer x with
  | Some z => (0 <=? z)%Z && (z <? Z.of_nat len)%Z
  | None => false
  end.


(** The screen's state after a run of events, each with the props of its
    render. *)
Definition runScreen (trace : list (DisplayScreen.Props * DisplayScreen.Event))
  (s : DisplayScreen.State) : DisplayScreen.State :=
  fold_left (fun st pe => DisplayScreen.step (fst pe) (snd pe) st) trace s.

(* ================================================================== *)
(** ** Facts about the number model *)
(* ================================================================== *)

Section NumberFacts.

Lemma eqn_refl (x : number) : x =n= x.
Proof. destruct x; simpl; auto with qarith. Qed.

Lemma eqn_sym (x y : number) : x =n= y -> y =n= x.
Proof. destruct x, y; simpl; auto with qarith. Qed.

Lemma eqn_trans (x y z : number) : x =n= y -> y =n= z -> x =n= z.
Proof.
  destruct x, y, z; simpl; try tauto.
  intros H1 H2. now rewrite H1.
Qed.

#[global] Instance eqn_Equivalence : Equivalence eqn.
Proof.
  constructor.
  - exact eqn_refl.
  - exact eqn_sym.
  - exact eqn_trans.
Qed.

Lemma eqn_of_eq (x y : number) : x = y -> x =n= y.
Proof. intros ->. reflexivity. Qed.

Lemma Qlt_bool_true (a b : Q) : a < b -> Qlt_bool a b = true.
Proof.
  intros H. unfold Qlt_bool.
  destruct (Qle_bool b a) eqn:E; [|reflexivity].
  apply Qle_bool_iff in E. lra.
Qed.

Lemma Qlt_bool_false (a b : Q) : b <= a -> Qlt_bool a b = false.
Proof.
  intros H. unfold Qlt_bool.
  apply Qle_bool_iff in H. now rewrite H.
Qed.

Lemma Qlt_bool_iff (a b : Q) : Qlt_bool a b = true <-> a < b.
Proof.
  split; [|apply Qlt_bool_true].
  intros H. destruct (Qlt_le_dec a b) as [L|L]; [exact L|].
  rewrite (Qlt_bool_false _ _ L) in H. discriminate.
Qed.

Lemma is_zero_false (q : Q) : ~ q == 0 -> is_zero q = false.
Proof.
  intros H. unfold is_zero. destruct (Qeq_bool q 0) eqn:E; [|reflexivity].
  apply Qeq_bool_iff in E. contradiction.
Qed.

Lemma is_zero_true (q : Q) : q == 0 -> is_zero q = true.
Proof. intros H. now apply Qeq_bool_iff. Qed.

Lemma div_fin (a b : Q) : ~ b == 0 -> (Fin a / Fin b)%js = Fin (a / b).
Proof. intros H. simpl. now rewrite (is_zero_false _ H). Qed.

Lemma rem_fin (a b : Q) :
  ~ b == 0 -> (Fin a %% Fin b)%js = Fin (a - b * inject_Z (Qtrunc (a / b))).
Proof. intros H. simpl. now rewrite (is_zero_false _ H). Qed.

(** The floor is the only integer within one below its argument. *)
Lemma Qfloor_unique (z : Z) (q : Q) :
  inject_Z z <= q -> q < inject_Z (z + 1) -> Qfloor q = z.
Proof.
  intros Hlo Hhi.
  pose proof (Qfloor_le q) as F1. pose proof (Qlt_floor q) as F2.
  assert (A : (z < Qfloor q + 1)%Z).
  { rewrite Zlt_Qlt. eapply Qle_lt_trans; eauto. }
  assert (B : (Qfloor q < z + 1)%Z).
  { rewrite Zlt_Qlt. eapply Qle_lt_trans; eauto. }
  lia.
Qed.

Lemma Qceiling_unique (z : Z) (q : Q) :
  inject_Z (z - 1) < q -> q <= inject_Z z -> Qceiling q = z.
Proof.
  intros Hlo Hhi. unfold Qceiling.
  assert (E : Qfloor (- q) = (- z)%Z).
  { apply Qfloor_unique.
    - rewrite inject_Z_opp. lra.
    - replace (- z + 1)%Z with (- (z - 1))%Z by lia.
      rewrite inject_Z_opp. lra. }
  rewrite E. lia.
Qed.

Lemma Qtrunc_nonneg (q : Q) : 0 <= q -> Qtrunc q = Qfloor q.
Proof.
  destruct q as [n d]. unfold Qle, Qtrunc, Qfloor. simpl. intros H.
  apply Z.quot_div_nonneg; lia.
Qed.

Lemma Qtrunc_nonpos (q : Q) : q <= 0 -> Qtrunc q = (- Qfloor (- q))%Z.
Proof.
  destruct q as [n d]. unfold Qle, Qtrunc, Qfloor, Qopp. simpl. intros H.
  rewrite <- (Z.quot_div_nonneg (- n) (Zpos d)) by lia.
  rewrite Z.quot_opp_l by lia. lia.
Qed.

Lemma Qtrunc_comp (x y : Q) : x == y -> Qtrunc x = Qtrunc y.
Proof.
  intros H. destruct (Qlt_le_dec x 0) as [L|L].
  - rewrite !Qtrunc_nonpos by lra. now rewrite H.
  - rewrite !Qtrunc_nonneg by lra. now rewrite H.
Qed.

Lemma Qtrunc_small (q : Q) : 0 <= q -> q < 1 -> Qtrunc q = 0%Z.
Proof.
  intros H0 H1. rewrite Qtrunc_nonneg by exact H0.
  apply Qfloor_unique; simpl; assumption.
Qed.

(** On whole numbers with a positive divisor, [%] is the truncated
    remainder of the integers. *)
Lemma rem_of_Z (a b : Z) :
  (0 < b)%Z -> (of_Z a %% of_Z b)%js =n= of_Z (Z.rem a b).
Proof.
  intros Hb. unfold of_Z.
  rewrite rem_fin.
  2:{ unfold Qeq. simpl. lia. }
  assert (T : Qtrunc (inject_Z a / inject_Z b) = Z.quot a b).
  { destruct b as [|p|p]; try lia.
    unfold Qdiv, Qinv, Qmult, Qtrunc, inject_Z. simpl.
    now rewrite Z.mul_1_r. }
  rewrite T. simpl. unfold Qminus.
  rewrite <- inject_Z_mult, <- inject_Z_opp, <- inject_Z_plus.
  rewrite Z.rem_eq by lia.
  unfold Qeq. simpl. lia.
Qed.

Lemma add_of_Z (a b : Z) : (of_Z a + of_Z b)%js =n= of_Z (a + b).
Proof. unfold of_Z. simpl. now rewrite inject_Z_plus. Qed.

Lemma rem_eqn_l (x y m : number) : x =n= y -> (x %% m)%js =n= (y %% m)%js.
Proof.
  destruct x as [a| | |], y as [b| | |]; simpl; try tauto.
  intros H. destruct m as [c| | |]; simpl; auto.
  destruct (is_zero c); simpl; [exact I|].
  rewrite (Qtrunc_comp (a / c) (b / c)) by now rewrite H.
  now rewrite H.
Qed.

Lemma as_integer_of_Z (z : Z) : as_integer (of_Z z) = Some z.
Proof.
  unfold as_integer, of_Z. rewrite Qfloor_Z. now rewrite Qeq_bool_refl.
Qed.

Lemma as_integer_eqn (x y : number) : x =n= y -> as_integer x = as_integer y.
Proof.
  destruct x as [a| | |], y as [b| | |]; simpl; try tauto.
  intros H. rewrite (Qfloor_comp a b H).
  now rewrite (Qeqb_comp a b H (inject_Z (Qfloor b)) _ (Qeq_refl _)).
Qed.

Lemma index_eqn {A : Type} (l : list A) (x y : number) :
  x =n= y -> index l x = index l y.
Proof. intros H. unfold index. now rewrite (as_integer_eqn x y H). Qed.

Lemma index_of_Z {A : Type} (l : list A) (z : Z) :
  (0 <= z)%Z -> index l (of_Z z) = nth_error l (Z.to_nat z).
Proof.
  intros H. unfold index. rewrite as_integer_of_Z.
  destruct (z <? 0)%Z eqn:E; [apply Z.ltb_lt in E; lia | reflexivity].
Qed.

End NumberFacts.

(* ================================================================== *)
(** ** The clamp to [0,100] used by the knob and the slider *)
(* ================================================================== *)

Section Clamp.

Lemma clamp100_low (x : Q) : x <= 0 -> clamp100 (Fin x) = Fin 0.
Proof.
  intros H. unfold clamp100, Math.max, Math.min, ltb.
  rewrite (Qlt_bool_true x 100) by lra.
  now rewrite (Qlt_bool_false 0 x) by lra.
Qed.

Lemma clamp100_mid (x : Q) : 0 < x -> x < 100 -> clamp100 (Fin x) = Fin x.
Proof.
  intros H0 H1. unfold clamp100, Math.max, Math.min, ltb.
  rewrite (Qlt_bool_true x 100) by lra.
  now rewrite (Qlt_bool_true 0 x) by lra.
Qed.

Lemma clamp100_high (x : Q) : 100 <= x -> clamp100 (Fin x) = Fin 100.
Proof.
  intros H. unfold clamp100, Math.max, Math.min, ltb.
  now rewrite (Qlt_bool_false x 100) by lra.
Qed.

(** The clamp agrees with the usual [max 0 (min 100 x)] of the rationals
    and stays within the range. *)
Lemma clamp100_spec (x : Q) :
  exists y, clamp100 (Fin x) = Fin y /\ y == Qmax 0 (Qmin 100 x)
            /\ 0 <= y <= 100.
Proof.
  destruct (Qlt_le_dec 0 x) as [L|L]; [destruct (Qlt_le_dec x 100) as [U|U]|].
  - exists x. rewrite clamp100_mid by assumption.
    rewrite (Q.min_r 100 x) by lra. rewrite (Q.max_r 0 x) by lra.
    repeat split; lra || reflexivity.
  - exists 100. rewrite clamp100_high by assumption.
    rewrite (Q.min_l 100 x) by lra. rewrite (Q.max_r 0 100) by lra.
    repeat split; lra || reflexivity.
  - exists 0. rewrite clamp100_low by assumption.
    rewrite (Q.min_r 100 x) by lra. rewrite (Q.max_l 0 x) by lra.
    repeat split; lra || reflexivity.
Qed.

(** The slider hands on a value in range whenever the track has a
    height. *)
Lemma updateValue_in_range (bottom height y : Q) :
  ~ height == 0 ->
  exists v, VerticalSlider.updateValue (Fin bottom) (Fin height) (Fin y) = Fin v
            /\ 0 <= v <= 100.
Proof.
  intros H. unfold VerticalSlider.updateValue.
  change (Fin bottom - Fin y)%js with (Fin (bottom + - y)).
  rewrite div_fin by exact H.
  change (Fin ((bottom + - y) / height) * Fin 100)%js
    with (Fin ((bottom + - y) / height * 100)).
  destruct (clamp100_spec ((bottom + - y) / height * 100)) as (v & E & _ & R).
  exists v. split; [exact E | exact R].
Qed.

End Clamp.

(* ================================================================== *)
(** ** Knob: angle conversion and wheel adjustment *)
(* ================================================================== *)

Section KnobProperties.

Lemma valueToAngle_fin (v : Q) :
  Knob.valueToAngle (Fin v) = Fin (v / 100 * 360).
Proof. reflexivity. Qed.

(** An angle already inside one turn is left alone by the
    normalisation. *)
Lemma angleToValue_in_turn (x : Q) :
  0 <= x -> x < 360 -> Knob.angleToValue (Fin x) =n= Fin (x / 360 * 100).
Proof.
  intros H0 H1. unfold Knob.angleToValue.
  rewrite rem_fin by (intros E; lra).
  assert (T : Qtrunc (x / 360) = 0%Z).
  { apply Qtrunc_small.
    - setoid_replace (x / 360) with (x * (1 # 360)) by field. lra.
    - setoid_replace (x / 360) with (x * (1 # 360)) by field. lra. }
  rewrite T.
  assert (L : (Fin (x - 360 * inject_Z 0) <? Fin 0)%js = false).
  { apply Qlt_bool_false. change (inject_Z 0) with 0. lra. }
  rewrite L. rewrite div_fin by (intros E; lra).
  simpl. change (inject_Z 0) with 0. field.
Qed.

(** A full turn is folded back to the start of the scale. *)
Lemma angleToValue_full_turn :
  Knob.angleToValue (Knob.valueToAngle (Fin 100)) =n= Fin 0.
Proof. vm_compute. reflexivity. Qed.

(** C1, as the code has it: for every value [v] with [0 <= v < 100],
    converting the knob value to an angle and back gives [v] again
    (exactly, over the rationals).  The upper end is excluded: see
    [round_trip_fails_at_100]. *)
Theorem angle_round_trip (v : Q) :
  0 <= v -> v < 100 ->
  Knob.angleToValue (Knob.valueToAngle (Fin v)) =n= Fin v.
Proof.
  intros H0 H1. rewrite valueToAngle_fin.
  eapply eqn_trans.
  - apply angleToValue_in_turn.
    + setoid_replace (v / 100 * 360) with (v * (18 # 5)) by field. lra.
    + setoid_replace (v / 100 * 360) with (v * (18 # 5)) by field. lra.
  - simpl. field.
Qed.

Lemma angle_round_trip_witness :
  Knob.angleToValue (Knob.valueToAngle (Fin 50)) =n= Fin 50.
Proof. apply (angle_round_trip 50); vm_compute; congruence. Defined.

(** C1, as stated, fails at [v = 100]: the angle is 360, which the
    normalisation maps to 0, so the value that comes back is 0. *)
Lemma round_trip_fails_at_100 :
  0 <= 100 <= 100 /\
  Knob.angleToValue (Knob.valueToAngle (Fin 100)) =n= Fin 0 /\
  ~ Knob.angleToValue (Knob.valueToAngle (Fin 100)) =n= Fin 100.
Proof.
  split; [split; vm_compute; congruence|].
  split; [exact angleToValue_full_turn|].
  vm_compute. congruence.
Qed.

Lemma handleWheel_down (d v : number) :
  (d >? Fin 0)%js = true ->
  Knob.handleWheel d v = clamp100 (v + Fin (-2))%js.
Proof. intros H. unfold Knob.handleWheel. now rewrite H. Qed.

Lemma handleWheel_up (d v : number) :
  (d >? Fin 0)%js = false ->
  Knob.handleWheel d v = clamp100 (v + Fin 2)%js.
Proof. intros H. unfold Knob.handleWheel. now rewrite H. Qed.

(** Whatever the finite starting value, the wheel hands on a value in
    range. *)
Lemma handleWheel_in_range (d : number) (v : Q) :
  exists y, Knob.handleWheel d (Fin v) = Fin y /\ 0 <= y <= 100.
Proof.
  destruct (d >? Fin 0)%js eqn:E.
  - rewrite handleWheel_down by exact E.
    destruct (clamp100_spec (v + -2)) as (y & Hy & _ & R). now exists y.
  - rewrite handleWheel_up by exact E.
    destruct (clamp100_spec (v + 2)) as (y & Hy & _ & R). now exists y.
Qed.

(** C7: for every starting value [v] in [0,100], a wheel tick gives
    [clamp(v + 2, 0, 100)] when [deltaY > 0] is false and
    [clamp(v - 2, 0, 100)] when it is true.  Hence [+2] then [-2] returns
    [v] whenever [v + 2 <= 100], while from any [v] above 98 (99 among
    them) it ends at 98; symmetrically [-2] then [+2] from below 2 ends
    at 2. *)
Theorem wheel_tick_clamp (v : Q) (up down : number) :
  0 <= v <= 100 ->
  (up >? Fin 0)%js = false ->
  (down >? Fin 0)%js = true ->
  Knob.handleWheel up (Fin v) =n= Fin (Qmax 0 (Qmin 100 (v + 2))) /\
  Knob.handleWheel down (Fin v) =n= Fin (Qmax 0 (Qmin 100 (v - 2))) /\
  (v + 2 <= 100 ->
   Knob.handleWheel down (Knob.handleWheel up (Fin v)) =n= Fin v) /\
  (100 < v + 2 ->
   Knob.handleWheel down (Knob.handleWheel up (Fin v)) =n= Fin 98) /\
  (v - 2 < 0 ->
   Knob.handleWheel up (Knob.handleWheel down (Fin v)) =n= Fin 2) /\
  Knob.handleWheel down (Knob.handleWheel up (Fin 99)) =n= Fin 98.
Proof.
  intros [H0 H1] Hup Hdown.
  assert (D : forall x, Knob.handleWheel down (Fin x) = clamp100 (Fin (x + -2))).
  { intros x. now rewrite handleWheel_down. }
  assert (U : forall x, Knob.handleWheel up (Fin x) = clamp100 (Fin (x + 2))).
  { intros x. now rewrite handleWheel_up. }
  split; [|split; [|split; [|split; [|split]]]].
  - rewrite U. destruct (clamp100_spec (v + 2)) as (y & -> & E & _).
    exact E.
  - rewrite D. destruct (clamp100_spec (v + -2)) as (y & -> & E & _).
    exact E.
  - intros Hle. rewrite U.
    destruct (Qlt_le_dec (v + 2) 100) as [L|L].
    + rewrite clamp100_mid by lra. rewrite D.
      destruct (Qlt_le_dec 0 v) as [P|P].
      * rewrite clamp100_mid by lra. simpl. ring.
      * rewrite clamp100_low by lra. simpl. lra.
    + rewrite clamp100_high by lra. rewrite D.
      rewrite clamp100_mid by lra. simpl. lra.
  - intros Hgt. rewrite U. rewrite clamp100_high by lra. rewrite D.
    rewrite clamp100_mid by lra. simpl. lra.
  - intros Hlt. rewrite D. rewrite clamp100_low by lra. rewrite U.
    rewrite clamp100_mid by lra. simpl. lra.
  - rewrite U. rewrite clamp100_high by lra. rewrite D.
    rewrite clamp100_mid by lra. simpl. lra.
Qed.

Lemma wheel_tick_clamp_witness :
  Knob.handleWheel (Fin (-1)) (Fin 50) =n= Fin (Qmax 0 (Qmin 100 (50 + 2))) /\
  Knob.handleWheel (Fin 1) (Fin 50) =n= Fin (Qmax 0 (Qmin 100 (50 - 2))) /\
  (50 + 2 <= 100 ->
   Knob.handleWheel (Fin 1) (Knob.handleWheel (Fin (-1)) (Fin 50)) =n= Fin 50) /\
  (100 < 50 + 2 ->
   Knob.handleWheel (Fin 1) (Knob.handleWheel (Fin (-1)) (Fin 50)) =n= Fin 98) /\
  (50 - 2 < 0 ->
   Knob.handleWheel (Fin (-1)) (Knob.handleWheel (Fin 1) (Fin 50)) =n= Fin 2) /\
  Knob.handleWheel (Fin 1) (Knob.handleWheel (Fin (-1)) (Fin 99)) =n= Fin 98.
Proof.
  apply (wheel_tick_clamp 50 (Fin (-1)) (Fin 1)).
  - split; vm_compute; congruence.
  - reflexivity.
  - reflexivity.
Defined.

End KnobProperties.

(* ================================================================== *)
(** ** App: the control state store *)
(* ================================================================== *)

Section StoreProperties.

Import App.

Lemma ControlKey_eq_dec (k k' : ControlKey) : {k = k'} + {k <> k'}.
Proof. decide equality. Defined.

Lemma get_updateControl_same (key : ControlKey) (value : fieldType key)
  (prev : ControlState) :
  get key (updateControl key value prev) = value.
Proof. destruct key; reflexivity. Qed.

Lemma get_updateControl_other (key key' : ControlKey) (value : fieldType key)
  (prev : ControlState) :
  key' <> key -> get key' (updateControl key value prev) = get key' prev.
Proof. intros H. destruct key, key'; try reflexivity; congruence. Qed.

(** C3, as the code has it: for every control key and every value, in
    range or not, [updateControl] stores the value exactly as given in the
    field the key names, leaves every other field as it was, and always
    yields a state (no call is rejected).  Nothing is clamped by the
    store. *)
Theorem updateControl_stores_as_given (key : ControlKey)
  (value : fieldType key) (prev : ControlState) :
  get key (updateControl key value prev) = value /\
  forall key', key' <> key ->
    get key' (updateControl key value prev) = get key' prev.
Proof.
  split.
  - apply get_updateControl_same.
  - intros key' H. now apply get_updateControl_other.
Qed.

Lemma updateControl_stores_as_given_witness :
  get K_detailDepth (updateControl K_detailDepth (Fin 150) initialControls)
    = Fin 150 /\
  get K_timelineProgress
    (updateControl K_detailDepth (Fin 150) initialControls)
    = get K_timelineProgress initialControls.
Proof.
  destruct (updateControl_stores_as_given K_detailDepth (Fin 150)
              initialControls) as [Hs Ho].
  split.
  - exact Hs.
  - apply Ho. discriminate.
Defined.

(** C3, as stated, fails: an out-of-range value reaches the record
    unchanged, above the range as well as below it. *)
Lemma updateControl_does_not_clamp :
  detailDepth (updateControl K_detailDepth (Fin 150) initialControls)
    = Fin 150 /\
  ~ detailDepth (updateControl K_detailDepth (Fin 150) initialControls)
      =n= clamp100 (Fin 150) /\
  architectureEmphasis
    (updateControl K_architectureEmphasis (Fin (-5)) initialControls)
    = Fin (-5) /\
  ~ architectureEmphasis
      (updateControl K_architectureEmphasis (Fin (-5)) initialControls)
      =n= clamp100 (Fin (-5)).
Proof.
  repeat split; vm_compute; congruence.
Qed.

End StoreProperties.

(* ================================================================== *)
(** ** DialNavigation: project selection by wheel, dial rotation *)
(* ================================================================== *)

Section NavigationProperties.

Import DialNavigation.

Lemma gtb_of_Z_zero (i : Z) : (of_Z i >? Fin 0)%js = (0 <? i)%Z.
Proof.
  unfold gtb, of_Z, ltb.
  destruct (0 <? i)%Z eqn:E.
  - apply Z.ltb_lt in E. apply Qlt_bool_true.
    change 0 with (inject_Z 0). now rewrite <- Zlt_Qlt.
  - apply Z.ltb_ge in E. apply Qlt_bool_false.
    change 0 with (inject_Z 0). now rewrite <- Zle_Qle.
Qed.

Lemma handleWheel_forward (d : number) (i : Z) (n : nat) :
  (d >? Fin 0)%js = true -> (0 <= i)%Z -> (0 < n)%nat ->
  exists r, handleWheel true d (of_Z i) n = Some r
            /\ r =n= of_Z ((i + 1) mod Z.of_nat n).
Proof.
  intros Hd Hi Hn. unfold handleWheel. rewrite Hd.
  eexists. split; [reflexivity|].
  eapply eqn_trans.
  - apply rem_eqn_l. apply (add_of_Z i 1).
  - unfold of_nat. rewrite <- Z.rem_mod_nonneg by lia.
    apply rem_of_Z. lia.
Qed.

Lemma handleWheel_backward (d : number) (i : Z) (n : nat) :
  (d >? Fin 0)%js = false -> (0 < i)%Z ->
  exists r, handleWheel true d (of_Z i) n = Some r /\ r =n= of_Z (i - 1).
Proof.
  intros Hd Hi. unfold handleWheel. rewrite Hd, gtb_of_Z_zero.
  replace (0 <? i)%Z with true by (symmetry; now apply Z.ltb_lt).
  eexists. split; [reflexivity|].
  apply (add_of_Z i (-1)).
Qed.

Lemma handleWheel_not_hovering (d i : number) (n : nat) (s : App.State) :
  handleWheel false d i n = None /\ wheel false d n s = s.
Proof. split; reflexivity. Qed.

Lemma handleWheel_floor (d : number) (n : nat) :
  (d >? Fin 0)%js = false -> handleWheel true d (of_Z 0) n = None.
Proof. intros Hd. unfold handleWheel. now rewrite Hd. Qed.

(** C4: for every active index [i] in [0, projectCount - 1], a wheel
    event over the dial with [deltaY > 0] (forward) sets the index to
    [(i + 1) mod projectCount], wrapping from the last project to the
    first; an event with [deltaY > 0] false (backward) sets it to [i - 1]
    when [i > 0] and changes nothing at [i = 0].  The control values are
    never touched. *)
Theorem wheel_navigation (n : nat) (i : Z) (fwd bwd : number)
  (c : App.ControlState) :
  (0 <= i <= Z.of_nat n - 1)%Z ->
  (fwd >? Fin 0)%js = true ->
  (bwd >? Fin 0)%js = false ->
  let s := App.mkState (of_Z i) c in
  App.activeProjectIndex (wheel true fwd n s)
    =n= of_Z ((i + 1) mod Z.of_nat n) /\
  (i = Z.of_nat n - 1 ->
   App.activeProjectIndex (wheel true fwd n s) =n= of_Z 0)%Z /\
  ((0 < i)%Z ->
   App.activeProjectIndex (wheel true bwd n s) =n= of_Z (i - 1)) /\
  (i = 0%Z -> wheel true bwd n s = s) /\
  App.controls (wheel true fwd n s) = c /\
  App.controls (wheel true bwd n s) = c.
Proof.
  intros Hi Hf Hb s.
  assert (Hn : (0 < n)%nat) by lia.
  destruct (handleWheel_forward fwd i n Hf) as (r & Hr & Er); [lia|lia|].
  assert (F : wheel true fwd n s = App.setActiveProjectIndex r s).
  { unfold wheel, s. cbn [App.activeProjectIndex]. now rewrite Hr. }
  split; [|split; [|split; [|split; [|split]]]].
  - rewrite F. exact Er.
  - intros ->. rewrite F. simpl. eapply eqn_trans; [exact Er|].
    replace (Z.of_nat n - 1 + 1)%Z with (Z.of_nat n) by lia.
    rewrite Z.mod_same by lia. apply eqn_refl.
  - intros Hpos.
    destruct (handleWheel_backward bwd i n Hb Hpos) as (r' & Hr' & Er').
    unfold wheel, s. cbn [App.activeProjectIndex]. rewrite Hr'. exact Er'.
  - intros ->. unfold wheel, s. cbn [App.activeProjectIndex].
    now rewrite (handleWheel_floor bwd n Hb).
  - now rewrite F.
  - unfold wheel, s. cbn [App.activeProjectIndex].
    destruct (handleWheel true bwd (of_Z i) n); reflexivity.
Qed.

Lemma wheel_navigation_witness :
  let s := App.mkState (of_Z 6) App.initialControls in
  App.activeProjectIndex (wheel true (Fin 1) 7 s)
    =n= of_Z ((6 + 1) mod Z.of_nat 7) /\
  (6 = Z.of_nat 7 - 1 ->
   App.activeProjectIndex (wheel true (Fin 1) 7 s) =n= of_Z 0)%Z /\
  ((0 < 6)%Z ->
   App.activeProjectIndex (wheel true (Fin (-1)) 7 s) =n= of_Z (6 - 1)) /\
  (6 = 0 -> wheel true (Fin (-1)) 7 s = s)%Z /\
  App.controls (wheel true (Fin 1) 7 s) = App.initialControls /\
  App.controls (wheel true (Fin (-1)) 7 s) = App.initialControls.
Proof.
  apply (wheel_navigation 7 6 (Fin 1) (Fin (-1)) App.initialControls).
  - simpl. lia.
  - reflexivity.
  - reflexivity.
Defined.

Lemma getDialRotation_fin (i : Q) (total : Z) :
  (2 <= total)%Z ->
  getDialRotation (Fin i) (of_Z total)
    = Fin (- (90 - i * (180 / (inject_Z total - 1)))).
Proof.
  intros H. unfold getDialRotation, of_Z. simpl.
  rewrite is_zero_false; [reflexivity|].
  change (- (1)) with (inject_Z (-1)). rewrite <- inject_Z_plus.
  unfold Qeq. simpl. lia.
Qed.

(** C5, as the code has it: for [total >= 2] items the dial rotation is
    [-(90 - activeIdx * step)] with [step = 180 / (total - 1)], which
    puts index 0 at -90 and the last index at +90.  The case [total = 1]
    has no branch of its own: the step is [180 / 0 = Infinity], and for
    the only index 0 the rotation is [0 * Infinity] carried through, that
    is [NaN]. *)
Theorem dial_rotation (i : Q) (total : Z) :
  (2 <= total)%Z ->
  getDialRotation (Fin i) (of_Z total)
    =n= Fin (- (90 - i * (180 / (inject_Z total - 1)))) /\
  getDialRotation (Fin 0) (of_Z total) =n= Fin (-90) /\
  getDialRotation (of_Z (total - 1)) (of_Z total) =n= Fin 90 /\
  getDialRotation (Fin 0) (Fin 1) = NaN.
Proof.
  intros H.
  assert (NZ : ~ inject_Z total - 1 == 0).
  { change 1 with (inject_Z 1). unfold Qminus.
    rewrite <- inject_Z_opp, <- inject_Z_plus. unfold Qeq. simpl. lia. }
  split; [|split; [|split]].
  - rewrite getDialRotation_fin by exact H. apply eqn_refl.
  - rewrite getDialRotation_fin by exact H. simpl. field. exact NZ.
  - unfold of_Z at 1. rewrite getDialRotation_fin by exact H. simpl.
    replace (total - 1)%Z with (total + -1)%Z by lia.
    rewrite inject_Z_plus. change (inject_Z (-1)) with (-1).
    field. exact NZ.
  - reflexivity.
Qed.

Lemma dial_rotation_witness :
  getDialRotation (Fin 3) (of_Z 7)
    =n= Fin (- (90 - 3 * (180 / (inject_Z 7 - 1)))) /\
  getDialRotation (Fin 0) (of_Z 7) =n= Fin (-90) /\
  getDialRotation (of_Z (7 - 1)) (of_Z 7) =n= Fin 90 /\
  getDialRotation (Fin 0) (Fin 1) = NaN.
Proof. apply (dial_rotation 3 7). lia. Defined.

(** C5, as stated, fails for a single item: the rotation is not 0. *)
Lemma dial_rotation_single_item_not_zero :
  getDialRotation (Fin 0) (Fin 1) = NaN /\
  ~ getDialRotation (Fin 0) (Fin 1) =n= Fin 0.
Proof. split; [reflexivity | vm_compute; tauto]. Qed.

End NavigationProperties.

(* ================================================================== *)
(** ** DialNavigation: slider readouts on the LCD *)
(* ================================================================== *)

Section ReadoutProperties.

Import DialNavigation.

Lemma toString_of_Z (k : Z) :
  toString (of_Z k) = NilZero.string_of_int (Z.to_int k).
Proof. unfold toString, of_Z. now rewrite Qfloor_Z. Qed.

Lemma depth_fin (v : Q) : depth (Fin v) = of_Z (Qceiling (v / 100 * 5)).
Proof. reflexivity. Qed.

Lemma Qceiling_depth_bounds (v : Q) :
  0 <= v <= 100 ->
  (0 <= Qceiling (v / 100 * 5) <= 5)%Z /\
  (0 < v -> (1 <= Qceiling (v / 100 * 5))%Z).
Proof.
  intros [H0 H1].
  assert (E : v / 100 * 5 == v * (1 # 20)) by field.
  rewrite (Qceiling_comp _ _ E).
  pose proof (Qle_ceiling (v * (1 # 20))) as U.
  pose proof (Qceiling_lt (v * (1 # 20))) as L.
  set (k := Qceiling (v * (1 # 20))) in *.
  unfold Z.sub in L. rewrite inject_Z_plus in L.
  change (inject_Z (- (1))) with (-1) in L.
  repeat split.
  - assert (A : (-1 < k)%Z).
    { rewrite Zlt_Qlt. change (inject_Z (-1)) with (-1). lra. }
    lia.
  - assert (A : (k < 6)%Z).
    { rewrite Zlt_Qlt. change (inject_Z 6) with 6. lra. }
    lia.
  - intros P.
    assert (A : (0 < k)%Z).
    { rewrite Zlt_Qlt. change (inject_Z 0) with 0. lra. }
    lia.
Qed.

(** C6, as the code has it: for every [detailDepth] in [0,100] the
    detail readout is [ceil(detailDepth / 100 * 5)], shown as that number
    followed by [/5]; it lies in 0..5, and in 1..5 as soon as
    [detailDepth] is positive.  At [detailDepth = 0] it is 0. *)
Theorem detail_readout (v : Q) :
  0 <= v <= 100 ->
  let k := Qceiling (v / 100 * 5) in
  depth (Fin v) = of_Z k /\
  (0 <= k <= 5)%Z /\
  (0 < v -> (1 <= k <= 5)%Z) /\
  handleSliderInteraction "DETAIL" (Fin v) true
    = mkReadout (Some "DETAIL"%string)
        (Some (NilZero.string_of_int (Z.to_int k) ++ "/5")%string).
Proof.
  intros H k.
  destruct (Qceiling_depth_bounds v H) as [B P].
  split; [apply depth_fin|].
  split; [exact B|].
  split; [intros Hv; specialize (P Hv); fold k in P; lia|].
  unfold handleSliderInteraction. simpl String.eqb. cbv iota.
  now rewrite depth_fin, toString_of_Z.
Qed.

Lemma detail_readout_witness :
  let k := Qceiling (33.3 / 100 * 5) in
  depth (Fin 33.3) = of_Z k /\
  (0 <= k <= 5)%Z /\
  (0 < 33.3 -> (1 <= k <= 5)%Z) /\
  handleSliderInteraction "DETAIL" (Fin 33.3) true
    = mkReadout (Some "DETAIL"%string)
        (Some (NilZero.string_of_int (Z.to_int k) ++ "/5")%string).
Proof. apply (detail_readout 33.3). split; vm_compute; congruence. Defined.

(** C6, as stated, fails at [detailDepth = 0]: the readout is 0, below
    the range 1..5, and the LCD shows [0/5]. *)
Lemma detail_readout_zero :
  0 <= 0 <= 100 /\
  depth (Fin 0) = of_Z 0 /\
  controlValue (handleSliderInteraction "DETAIL" (Fin 0) true)
    = Some "0/5"%string /\
  ~ (exists k : Z, (1 <= k <= 5)%Z /\ depth (Fin 0) =n= of_Z k).
Proof.
  split; [split; vm_compute; congruence|].
  split; [reflexivity|]. split; [reflexivity|].
  intros (k & Hk & E). rewrite depth_fin in E.
  unfold of_Z, eqn, Qeq in E. simpl in E. lia.
Qed.

Lemma stageIndex_fin (v : Q) :
  stageIndex (Fin v) = of_Z (Qfloor (v / 100 * (inject_Z 5 - 1))).
Proof. reflexivity. Qed.

Lemma Qfloor_stage (v : Q) (k : Z) :
  inject_Z k * 25 <= v -> v < (inject_Z k + 1) * 25 ->
  Qfloor (v / 100 * (inject_Z 5 - 1)) = k.
Proof.
  intros L U.
  assert (E : v / 100 * (inject_Z 5 - 1) == v * (1 # 25)).
  { change (inject_Z 5) with 5. field. }
  rewrite (Qfloor_comp _ _ E).
  apply Qfloor_unique.
  - lra.
  - rewrite inject_Z_plus. change (inject_Z 1) with 1. lra.
Qed.

(** The stage shown on the LCD, bucket by bucket. *)
Lemma stage_readout_buckets (v : Q) :
  0 <= v <= 100 ->
  controlValue (handleSliderInteraction "STAGE" (Fin v) true)
  = Some (if Qlt_bool v 25 then "CONCEPT"
          else if Qlt_bool v 50 then "DEVELOP"
          else if Qlt_bool v 75 then "REFINE"
          else if Qlt_bool v 100 then "BUILD"
          else "FINAL")%string.
Proof.
  intros [H0 H1].
  unfold handleSliderInteraction. simpl String.eqb. cbv iota.
  cbn [controlValue]. rewrite stageIndex_fin.
  destruct (Qlt_bool v 25) eqn:E1; [apply Qlt_bool_iff in E1|].
  { rewrite (Qfloor_stage v 0) by (unfold inject_Z; lra). reflexivity. }
  destruct (Qlt_bool v 50) eqn:E2; [apply Qlt_bool_iff in E2|].
  { assert (25 <= v).
    { destruct (Qlt_le_dec v 25) as [A|A]; [|exact A].
      apply Qlt_bool_iff in A. congruence. }
    rewrite (Qfloor_stage v 1) by (unfold inject_Z; lra). reflexivity. }
  destruct (Qlt_bool v 75) eqn:E3; [apply Qlt_bool_iff in E3|].
  { assert (50 <= v).
    { destruct (Qlt_le_dec v 50) as [A|A]; [|exact A].
      apply Qlt_bool_iff in A. congruence. }
    rewrite (Qfloor_stage v 2) by (unfold inject_Z; lra). reflexivity. }
  destruct (Qlt_bool v 100) eqn:E4; [apply Qlt_bool_iff in E4|].
  { assert (75 <= v).
    { destruct (Qlt_le_dec v 75) as [A|A]; [|exact A].
      apply Qlt_bool_iff in A. congruence. }
    rewrite (Qfloor_stage v 3) by (unfold inject_Z; lra). reflexivity. }
  assert (100 <= v).
  { destruct (Qlt_le_dec v 100) as [A|A]; [|exact A].
    apply Qlt_bool_iff in A. congruence. }
  rewrite (Qfloor_stage v 4) by (unfold inject_Z; lra). reflexivity.
Qed.

End ReadoutProperties.

(* ================================================================== *)
(** ** ProjectContent: column widths and timeline stage *)
(* ================================================================== *)

Section LayoutProperties.

Import App ProjectContent.

Variables (vm : ViewMode) (md : bool) (dd tp : number).

(** The control record with the three emphasis values given and the other
    fields arbitrary. *)
Local Abbreviation emphasis a p s :=
  (mkControlState (Fin a) (Fin p) (Fin s) vm md dd tp).

Lemma total_fin (a p s : Q) : total (emphasis a p s) = Fin (a + p + s).
Proof. reflexivity. Qed.

Lemma widths_fin (a p s : Q) :
  ~ a + p + s == 0 ->
  archWidth (emphasis a p s) = Fin (a / (a + p + s) * 100) /\
  prodWidth (emphasis a p s) = Fin (p / (a + p + s) * 100) /\
  softWidth (emphasis a p s) = Fin (s / (a + p + s) * 100).
Proof.
  intros NZ. unfold archWidth, prodWidth, softWidth.
  rewrite total_fin.
  cbn [architectureEmphasis productDesignEmphasis softwareEmphasis].
  rewrite !div_fin by exact NZ. repeat split.
Qed.

(** With a zero sum every quotient is [0 / 0]. *)
Lemma widths_zero_sum (a p s : Q) :
  a == 0 -> p == 0 -> s == 0 ->
  archWidth (emphasis a p s) = NaN /\
  prodWidth (emphasis a p s) = NaN /\
  softWidth (emphasis a p s) = NaN.
Proof.
  intros Ha Hp Hs. unfold archWidth, prodWidth, softWidth.
  rewrite total_fin.
  cbn [architectureEmphasis productDesignEmphasis softwareEmphasis].
  unfold div. rewrite is_zero_true by lra.
  apply Qeq_alt in Ha, Hp, Hs. rewrite Ha, Hp, Hs. repeat split.
Qed.

(** C8: for every triple of positive emphasis values, each column width is
    its value divided by the sum, times 100, and the three widths add up
    to exactly 100 over the rationals. *)
Theorem column_widths_sum_to_100 (a p s : Q) :
  0 < a -> 0 < p -> 0 < s ->
  let c := mkControlState (Fin a) (Fin p) (Fin s) vm md dd tp in
  archWidth c = Fin (a / (a + p + s) * 100) /\
  prodWidth c = Fin (p / (a + p + s) * 100) /\
  softWidth c = Fin (s / (a + p + s) * 100) /\
  (archWidth c + prodWidth c + softWidth c)%js =n= Fin 100.
Proof.
  intros Ha Hp Hs c.
  assert (NZ : ~ a + p + s == 0) by (intros E; lra).
  destruct (widths_fin a p s NZ) as (Wa & Wp & Ws).
  unfold c. rewrite Wa, Wp, Ws.
  repeat split. simpl. field. exact NZ.
Qed.

(** C2, as the code has it: when the three emphasis values are all zero
    the sum is zero and the code divides by it all the same: each of the
    three widths is [0 / 0 * 100], which is [NaN].  There is no
    equal-thirds branch. *)
Theorem column_widths_zero_sum (a p s : Q) :
  a == 0 -> p == 0 -> s == 0 ->
  let c := mkControlState (Fin a) (Fin p) (Fin s) vm md dd tp in
  total c =n= Fin 0 /\
  archWidth c = NaN /\ prodWidth c = NaN /\ softWidth c = NaN.
Proof.
  intros Ha Hp Hs c. split.
  - unfold c. rewrite total_fin. simpl. lra.
  - now apply widths_zero_sum.
Qed.

End LayoutProperties.

Section LayoutExamples.

Import App ProjectContent.

Lemma column_widths_sum_to_100_witness :
  let c := mkControlState (Fin 20) (Fin 30) (Fin 50) hero false
             (Fin 100) (Fin 100) in
  archWidth c = Fin (20 / (20 + 30 + 50) * 100) /\
  prodWidth c = Fin (30 / (20 + 30 + 50) * 100) /\
  softWidth c = Fin (50 / (20 + 30 + 50) * 100) /\
  (archWidth c + prodWidth c + softWidth c)%js =n= Fin 100.
Proof.
  apply (column_widths_sum_to_100 hero false (Fin 100) (Fin 100) 20 30 50);
    reflexivity.
Defined.

(** The initial state has three equal positive values, hence three equal
    widths. *)
Example initial_widths :
  archWidth initialControls =n= Fin (100 / 3) /\
  prodWidth initialControls =n= Fin (100 / 3) /\
  softWidth initialControls =n= Fin (100 / 3).
Proof. vm_compute. tauto. Qed.

Lemma column_widths_zero_sum_witness :
  let c := mkControlState (Fin 0) (Fin 0) (Fin 0) hero false
             (Fin 100) (Fin 100) in
  total c =n= Fin 0 /\
  archWidth c = NaN /\ prodWidth c = NaN /\ softWidth c = NaN.
Proof.
  apply (column_widths_zero_sum hero false (Fin 100) (Fin 100) 0 0 0);
    reflexivity.
Defined.

(** C2, as stated, fails: at [(0,0,0)] no width is [100/3]. *)
Lemma column_widths_zero_sum_not_thirds :
  let c := mkControlState (Fin 0) (Fin 0) (Fin 0) hero false
             (Fin 100) (Fin 100) in
  total c = Fin 0 /\
  ~ archWidth c =n= Fin (100 / 3) /\
  ~ prodWidth c =n= Fin (100 / 3) /\
  ~ softWidth c =n= Fin (100 / 3).
Proof. vm_compute. tauto. Qed.

End LayoutExamples.

(* ================================================================== *)
(** ** DisplayScreen: the idle cycle and the text on the LCD *)
(* ================================================================== *)

Section DisplayProperties.

Import DisplayScreen.

Lemma add_eqn_l (x y z : number) : x =n= y -> (x + z)%js =n= (y + z)%js.
Proof.
  destruct x as [a| | |], y as [b| | |]; simpl; try tauto;
    destruct z; simpl; try tauto.
  intros H. now rewrite H.
Qed.

(** One run of the interval callback while idle. *)
Lemma tick_advances (p : Props) (s : State) (c : Z) :
  idleMode s = true -> idleCycle s =n= of_Z c -> (0 <= c < 3)%Z ->
  idleMode (step p CycleTick s) = true /\
  idleCycle (step p CycleTick s) =n= of_Z ((c + 1) mod 3).
Proof.
  intros Hm Hc Hr. unfold step. rewrite Hm. cbn [idleMode idleCycle].
  split; [reflexivity|].
  eapply eqn_trans; [apply rem_eqn_l, add_eqn_l, Hc|].
  eapply eqn_trans; [apply rem_eqn_l, (add_of_Z c 1)|].
  rewrite <- Z.rem_mod_nonneg by lia.
  apply (rem_of_Z (c + 1) 3). lia.
Qed.

Lemma ticks_advance (p : Props) (s : State) (c : Z) (n : nat) :
  idleMode s = true -> idleCycle s =n= of_Z c -> (0 <= c < 3)%Z ->
  idleMode (Nat.iter n (step p CycleTick) s) = true /\
  idleCycle (Nat.iter n (step p CycleTick) s)
    =n= of_Z ((c + Z.of_nat n) mod 3).
Proof.
  intros Hm Hc Hr. induction n as [|n [IHm IHc]].
  - simpl. split; [exact Hm|].
    rewrite Z.add_0_r, Z.mod_small by lia. exact Hc.
  - rewrite Nat.iter_succ.
    destruct (tick_advances p (Nat.iter n (step p CycleTick) s)
                ((c + Z.of_nat n) mod 3) IHm IHc) as [Sm Sc].
    { apply Z.mod_pos_bound. lia. }
    split; [exact Sm|].
    replace ((c + Z.of_nat (S n)) mod 3)%Z
      with (((c + Z.of_nat n) mod 3 + 1) mod 3)%Z; [exact Sc|].
    rewrite Z.add_mod_idemp_l by lia. f_equal. lia.
Qed.

(** An interaction ends idle mode, after which the interval callback
    changes nothing. *)
Lemma interaction_stops_cycle (p : Props) (s : State) :
  truthy (activeControl p) = true ->
  let s' := step p ActiveControlEffect s in
  idleMode s' = false /\ idleCycle s' = idleCycle s /\
  step p CycleTick s' = s'.
Proof.
  intros H s'. unfold s', step. rewrite H. repeat split.
Qed.

(** The percentage text of a discipline value. *)
Local Abbreviation percent x := (toString (Math.round x) ++ "%")%string.

(** What the LCD shows in idle mode for a cycle index in range. *)
Lemma idle_display (p : Props) (dv : DisciplineValues) (s : State) (k : Z) :
  truthy (activeControl p) = false ->
  disciplineValues p = Some dv ->
  idleMode s = true ->
  idleCycle s =n= of_Z k ->
  (k = 0%Z ->
   getDisplayContent p s = Some (mkContent "ARCH" (percent (architecture dv)))) /\
  (k = 1%Z ->
   getDisplayContent p s = Some (mkContent "PROD" (percent (productDesign dv)))) /\
  (k = 2%Z ->
   getDisplayContent p s = Some (mkContent "SOFT" (percent (software dv)))).
Proof.
  intros Ha Hd Hm Hc. unfold getDisplayContent.
  rewrite Ha, Hm, Hd. cbn [andb negb].
  rewrite (index_eqn _ _ _ Hc).
  repeat split; intros ->; reflexivity.
Qed.

(** C9: in idle mode (no control active, [idleMode] set) the LCD shows
    the name and rounded percentage of the discipline selected by
    [idleCycle]; every run of the interval callback replaces the index
    [c] by [(c + 1) mod 3] and keeps the mode; so after [n] ticks from
    index [c] the index is [(c + n) mod 3] and the display is ARCH, PROD
    or SOFT according to whether that is 0, 1 or 2: the order
    ARCH, PROD, SOFT, ARCH, ... for ever. *)
Theorem idle_cycle_order (p : Props) (dv : DisciplineValues) (s : State)
  (c : Z) (n : nat) :
  truthy (activeControl p) = false ->
  disciplineValues p = Some dv ->
  idleMode s = true ->
  idleCycle s =n= of_Z c ->
  (0 <= c < 3)%Z ->
  let s' := Nat.iter n (step p CycleTick) s in
  let k := ((c + Z.of_nat n) mod 3)%Z in
  idleCycle (step p CycleTick s) =n= of_Z ((c + 1) mod 3) /\
  idleMode s' = true /\
  idleCycle s' =n= of_Z k /\
  (k = 0%Z ->
   getDisplayContent p s'
     = Some (mkContent "ARCH" (toString (Math.round (architecture dv)) ++ "%"))) /\
  (k = 1%Z ->
   getDisplayContent p s'
     = Some (mkContent "PROD" (toString (Math.round (productDesign dv)) ++ "%"))) /\
  (k = 2%Z ->
   getDisplayContent p s'
     = Some (mkContent "SOFT" (toString (Math.round (software dv)) ++ "%"))).
Proof.
  intros Ha Hd Hm Hc Hr s' k.
  destruct (tick_advances p s c Hm Hc Hr) as [_ T1].
  destruct (ticks_advance p s c n Hm Hc Hr) as [Im Ic].
  fold s' in Im, Ic. fold k in Ic.
  split; [exact T1|]. split; [exact Im|]. split; [exact Ic|].
  exact (idle_display p dv s' k Ha Hd Im Ic).
Qed.

End DisplayProperties.

Section DisplayExamples.

Import DisplayScreen.

(** The screen of the initial application state, nothing being touched,
    and its state once the idle timeout has fired. *)
Local Abbreviation idleProps :=
  (mkProps (Fin 0) "About Me" None None
     (Some (mkDisciplineValues (Fin 33.33) (Fin 33.33) (Fin 33.33)))).

Local Abbreviation idleStart := (step idleProps IdleTimeout initialState).

Lemma idle_cycle_order_witness :
  let dv := mkDisciplineValues (Fin 33.33) (Fin 33.33) (Fin 33.33) in
  let s' := Nat.iter 4 (step idleProps CycleTick) idleStart in
  let k := ((0 + Z.of_nat 4) mod 3)%Z in
  idleCycle (step idleProps CycleTick idleStart) =n= of_Z ((0 + 1) mod 3) /\
  idleMode s' = true /\
  idleCycle s' =n= of_Z k /\
  (k = 0%Z ->
   getDisplayContent idleProps s'
     = Some (mkContent "ARCH" (toString (Math.round (architecture dv)) ++ "%"))) /\
  (k = 1%Z ->
   getDisplayContent idleProps s'
     = Some (mkContent "PROD" (toString (Math.round (productDesign dv)) ++ "%"))) /\
  (k = 2%Z ->
   getDisplayContent idleProps s'
     = Some (mkContent "SOFT" (toString (Math.round (software dv)) ++ "%"))).
Proof.
  apply (idle_cycle_order idleProps
           (mkDisciplineValues (Fin 33.33) (Fin 33.33) (Fin 33.33))
           idleStart 0 4).
  - reflexivity.
  - reflexivity.
  - reflexivity.
  - reflexivity.
  - lia.
Defined.

(** From the moment the idle timeout has fired, three ticks go round
    once. *)
Example idle_three_ticks :
  map (fun n => option_map line1
         (getDisplayContent idleProps
            (Nat.iter n (step idleProps CycleTick) idleStart)))
      [0; 1; 2; 3]%nat
  = [Some "ARCH"; Some "PROD"; Some "SOFT"; Some "ARCH"]%string.
Proof. vm_compute. reflexivity. Qed.

Example idle_percentage :
  getDisplayContent idleProps idleStart = Some (mkContent "ARCH" "33%").
Proof. vm_compute. reflexivity. Qed.

End DisplayExamples.

(* ================================================================== *)
(** ** The stage on the LCD against the stage in the content panel *)
(* ================================================================== *)

Section StageLabels.

Import App DialNavigation.

Lemma getTimelineStage_fin (c : ControlState) (v : Q) :
  timelineProgress c = Fin v ->
  ProjectContent.getTimelineStage c
  = (if Qlt_bool v 20 then "CONCEPT"
     else if Qlt_bool v 40 then "DEVELOPMENT"
     else if Qlt_bool v 60 then "REFINEMENT"
     else if Qlt_bool v 80 then "BUILD"
     else "FINAL")%string.
Proof. intros H. unfold ProjectContent.getTimelineStage. now rewrite H. Qed.

Lemma stage_readout_nth (v : Q) :
  0 <= v <= 100 ->
  controlValue (handleSliderInteraction "STAGE" (Fin v) true)
  = nth_error stages (Z.to_nat (Qfloor (v / 100 * 4))).
Proof.
  intros [H0 H1].
  unfold handleSliderInteraction. simpl String.eqb. cbv iota.
  cbn [controlValue]. rewrite stageIndex_fin.
  assert (E : v / 100 * (inject_Z 5 - 1) == v / 100 * 4).
  { change (inject_Z 5) with 5. field. }
  rewrite (Qfloor_comp _ _ E).
  apply index_of_Z.
  change 0%Z with (Qfloor 0). apply Qfloor_resp_le.
  setoid_replace (v / 100 * 4) with (v * (1 # 25)) by field. lra.
Qed.

(** C10: while the timeline slider is being handled with value [v] in
    [0,100], the second line of the LCD is
    [stages[floor(v / 100 * 4)]] with
    [stages = CONCEPT, DEVELOP, REFINE, BUILD, FINAL], the first line being
    the label [STAGE]: CONCEPT below 25, DEVELOP below 50, REFINE below
    75, BUILD below 100 and FINAL at 100.  The content panel cuts at
    20/40/60/80 and spells the names out, so for [v] from 20 up to 25
    (20 among them) the LCD says CONCEPT where the panel says
    DEVELOPMENT. *)
Theorem stage_readout_differs_from_panel (v : Q) (p : DisplayScreen.Props)
  (s : DisplayScreen.State) (c : ControlState) :
  0 <= v <= 100 ->
  let r := handleSliderInteraction "STAGE" (Fin v) true in
  DisplayScreen.activeControl p = activeControl r ->
  DisplayScreen.controlValue p = controlValue r ->
  timelineProgress c = Fin v ->
  exists label : string,
    nth_error stages (Z.to_nat (Qfloor (v / 100 * 4))) = Some label /\
    label = (if Qlt_bool v 25 then "CONCEPT"
             else if Qlt_bool v 50 then "DEVELOP"
             else if Qlt_bool v 75 then "REFINE"
             else if Qlt_bool v 100 then "BUILD"
             else "FINAL")%string /\
    DisplayScreen.getDisplayContent p s
      = Some (DisplayScreen.mkContent "STAGE" label) /\
    ProjectContent.getTimelineStage c
      = (if Qlt_bool v 20 then "CONCEPT"
         else if Qlt_bool v 40 then "DEVELOPMENT"
         else if Qlt_bool v 60 then "REFINEMENT"
         else if Qlt_bool v 80 then "BUILD"
         else "FINAL")%string /\
    (20 <= v -> v < 25 ->
     label = "CONCEPT"%string /\
     ProjectContent.getTimelineStage c = "DEVELOPMENT"%string).
Proof.
  intros Hv r Ha Hc Ht.
  pose proof (stage_readout_buckets v Hv) as B.
  pose proof (stage_readout_nth v Hv) as N.
  fold r in B, N.
  eexists. split; [rewrite <- N; exact B|].
  split; [reflexivity|].
  split; [|split].
  - unfold DisplayScreen.getDisplayContent. rewrite Ha, Hc, B.
    unfold r, handleSliderInteraction. simpl String.eqb. cbv iota.
    cbn [activeControl].
    repeat match goal with
           | |- context [Qlt_bool ?a ?b] => destruct (Qlt_bool a b)
           end; reflexivity.
  - now apply getTimelineStage_fin.
  - intros L U. rewrite (getTimelineStage_fin c v Ht).
    rewrite (Qlt_bool_true v 25) by exact U.
    rewrite (Qlt_bool_false v 20) by exact L.
    rewrite (Qlt_bool_true v 40) by lra.
    split; reflexivity.
Qed.

Lemma stage_readout_differs_from_panel_witness :
  exists label : string,
    nth_error stages (Z.to_nat (Qfloor (20 / 100 * 4))) = Some label /\
    label = (if Qlt_bool 20 25 then "CONCEPT"
             else if Qlt_bool 20 50 then "DEVELOP"
             else if Qlt_bool 20 75 then "REFINE"
             else if Qlt_bool 20 100 then "BUILD"
             else "FINAL")%string /\
    DisplayScreen.getDisplayContent
      (DisplayScreen.mkProps (Fin 1) "Project 1" (Some "STAGE"%string)
         (Some "CONCEPT"%string) None)
      DisplayScreen.initialState
      = Some (DisplayScreen.mkContent "STAGE" label) /\
    ProjectContent.getTimelineStage
      (updateControl K_timelineProgress (Fin 20) initialControls)
      = (if Qlt_bool 20 20 then "CONCEPT"
         else if Qlt_bool 20 40 then "DEVELOPMENT"
         else if Qlt_bool 20 60 then "REFINEMENT"
         else if Qlt_bool 20 80 then "BUILD"
         else "FINAL")%string /\
    (20 <= 20 -> 20 < 25 ->
     label = "CONCEPT"%string /\
     ProjectContent.getTimelineStage
       (updateControl K_timelineProgress (Fin 20) initialControls)
       = "DEVELOPMENT"%string).
Proof.
  apply (stage_readout_differs_from_panel 20
           (DisplayScreen.mkProps (Fin 1) "Project 1" (Some "STAGE"%string)
              (Some "CONCEPT"%string) None)
           DisplayScreen.initialState
           (updateControl K_timelineProgress (Fin 20) initialControls)).
  - split; vm_compute; congruence.
  - reflexivity.
  - reflexivity.
  - reflexivity.
Defined.

End StageLabels.

(* ================================================================== *)
(** ** Knob: the angle scale beyond one turn, and dragging *)
(* ================================================================== *)

Section AngleProperties.

(** The remainder, shifted up by the modulus when negative, is the
    remainder of floored division. *)
Lemma rem_shift_floor (d m : Q) :
  0 < m ->
  let r := d - m * inject_Z (Qtrunc (d / m)) in
  (if Qlt_bool r 0 then r + m else r) == d - m * inject_Z (Qfloor (d / m)).
Proof.
  intros Hm r. subst r.
  assert (Hd : d == m * (d / m)) by (field; lra).
  set (q := d / m) in *.
  destruct (Qlt_le_dec q 0) as [N|P].
  - rewrite Qtrunc_nonpos by lra.
    change (- Qfloor (- q))%Z with (Qceiling q).
    pose proof (Qle_ceiling q) as U. pose proof (Qceiling_lt q) as L.
    set (c := Qceiling q) in *.
    unfold Z.sub in L. rewrite inject_Z_plus in L.
    change (inject_Z (- (1))) with (-1) in L.
    destruct (Qlt_bool (d - m * inject_Z c) 0) eqn:E.
    + apply Qlt_bool_iff in E.
      assert (F : Qfloor q = (c + -1)%Z).
      { apply Qfloor_unique.
        - rewrite inject_Z_plus. change (inject_Z (-1)) with (-1). lra.
        - replace (c + -1 + 1)%Z with c by lia. nra. }
      rewrite F, inject_Z_plus. change (inject_Z (-1)) with (-1). ring.
    + assert (G : 0 <= d - m * inject_Z c).
      { destruct (Qlt_le_dec (d - m * inject_Z c) 0) as [A|A]; [|exact A].
        apply Qlt_bool_iff in A. congruence. }
      assert (F : Qfloor q = c).
      { apply Qfloor_unique.
        - nra.
        - rewrite inject_Z_plus. change (inject_Z 1) with 1. lra. }
      rewrite F. reflexivity.
  - rewrite Qtrunc_nonneg by exact P.
    pose proof (Qfloor_le q) as U.
    rewrite (Qlt_bool_false (d - m * inject_Z (Qfloor q)) 0) by nra.
    reflexivity.
Qed.

(** The angle brought into one turn by floored division. *)
Local Abbreviation turn d := (d - 360 * inject_Z (Qfloor (d / 360))).


Lemma angleToValue_fin (d : Q) :
  Knob.angleToValue (Fin d) =n= Fin (turn d / 360 * 100).
Proof.
  unfold Knob.angleToValue.
  rewrite rem_fin by (intros E; lra).
  pose proof (rem_shift_floor d 360 ltac:(lra)) as R. cbv zeta in R.
  change (Fin (d - 360 * inject_Z (Qtrunc (d / 360))) <? Fin 0)%js
    with (Qlt_bool (d - 360 * inject_Z (Qtrunc (d / 360))) 0).
  destruct (Qlt_bool (d - 360 * inject_Z (Qtrunc (d / 360))) 0).
  - change (Fin (d - 360 * inject_Z (Qtrunc (d / 360))) + Fin 360)%js
      with (Fin (d - 360 * inject_Z (Qtrunc (d / 360)) + 360)).
    rewrite div_fin by (intros E; lra). simpl. now rewrite R.
  - rewrite div_fin by (intros E; lra). simpl. now rewrite R.
Qed.


Lemma Qfloor_add_Z (q : Q) (k : Z) : Qfloor (q + inject_Z k) = (Qfloor q + k)%Z.
Proof.
  pose proof (Qfloor_le q) as L. pose proof (Qlt_floor q) as U.
  rewrite inject_Z_plus in U.
  apply Qfloor_unique.
  - rewrite inject_Z_plus. lra.
  - rewrite !inject_Z_plus. lra.
Qed.

(** X2: whole turns do not matter: [angleToValue(d + 360 k)] is
    [angleToValue(d)] for every finite angle [d] and every integer [k]. *)
Theorem angleToValue_periodic (d : Q) (k : Z) :
  Knob.angleToValue (Fin (d + 360 * inject_Z k)) =n= Knob.angleToValue (Fin d).
Proof.
  rewrite (angleToValue_fin (d + 360 * inject_Z k)), (angleToValue_fin d).
  assert (E : (d + 360 * inject_Z k) / 360 == d / 360 + inject_Z k) by field.
  rewrite (Qfloor_comp _ _ E), Qfloor_add_Z, inject_Z_plus.
  simpl. field.
Qed.

Lemma valueToAngle_eqn (x y : number) :
  x =n= y -> Knob.valueToAngle x =n= Knob.valueToAngle y.
Proof.
  destruct x as [a| | |], y as [b| | |]; intros H; simpl in H;
    try tauto; try reflexivity.
  rewrite !valueToAngle_fin. simpl. now rewrite H.
Qed.

(** Back on the angle scale, a value that came from an angle is that angle
    brought into one turn. *)
Lemma valueToAngle_angleToValue (d : Q) :
  Knob.valueToAngle (Knob.angleToValue (Fin d))
    =n= Fin (d - 360 * inject_Z (Qfloor (d / 360))).
Proof.
  rewrite (valueToAngle_eqn _ _ (angleToValue_fin d)).
  rewrite valueToAngle_fin. simpl. field.
Qed.

(** X3: the round trip in the other direction: for every angle [d] with
    [0 <= d < 360], [valueToAngle(angleToValue(d))] is [d]. *)
Theorem value_of_angle_round_trip (d : Q) :
  0 <= d -> d < 360 ->
  Knob.valueToAngle (Knob.angleToValue (Fin d)) =n= Fin d.
Proof.
  intros H0 H1. rewrite valueToAngle_angleToValue.
  assert (F : Qfloor (d / 360) = 0%Z).
  { apply Qfloor_unique.
    - setoid_replace (d / 360) with (d * (1 # 360)) by field.
      change (inject_Z 0) with 0. lra.
    - setoid_replace (d / 360) with (d * (1 # 360)) by field.
      change (inject_Z (0 + 1)) with 1. lra. }
  rewrite F. simpl. change (inject_Z 0) with 0. ring.
Qed.

Lemma value_of_angle_round_trip_witness :
  Knob.valueToAngle (Knob.angleToValue (Fin 90)) =n= Fin 90.
Proof. apply (value_of_angle_round_trip 90); vm_compute; congruence. Defined.

End AngleProperties.

Section DragAndWheel.



(** The four directions of the pointer. *)
Example drag_cardinal_points :
  Knob.handleMouseMove_from (Fin (-90)) =n= Fin 0 /\
  Knob.handleMouseMove_from (Fin 0) =n= Fin 25 /\
  Knob.handleMouseMove_from (Fin 90) =n= Fin 50 /\
  Knob.handleMouseMove_from (Fin 180) =n= Fin 75 /\
  Knob.handleMouseMove_from (Fin (-180)) =n= Fin 75.
Proof. vm_compute. tauto. Qed.

(** X5: whatever the value the knob is given - in range, out of range or
    infinite - one wheel tick hands on a number in [0,100]; only [NaN]
    is handed on as [NaN]. *)
Theorem wheel_always_in_range (d : number) :
  (forall v : Q, exists y, Knob.handleWheel d (Fin v) = Fin y /\ 0 <= y <= 100) /\
  Knob.handleWheel d PInf = Fin 100 /\
  Knob.handleWheel d NInf = Fin 0 /\
  Knob.handleWheel d NaN = NaN.
Proof.
  split; [intros v; apply handleWheel_in_range|].
  unfold Knob.handleWheel. destruct (d >? Fin 0)%js; repeat split.
Qed.

Lemma clamp100_Qmin (x : Q) :
  0 <= x -> exists y, clamp100 (Fin x) = Fin y /\ y == Qmin 100 x.
Proof.
  intros H. destruct (clamp100_spec x) as (y & E & M & _).
  exists y. split; [exact E|]. rewrite M.
  destruct (Q.min_spec 100 x) as [[A ->]|[A ->]]; apply Q.max_r; lra.
Qed.

Lemma clamp100_Qmax (x : Q) :
  x <= 100 -> exists y, clamp100 (Fin x) = Fin y /\ y == Qmax 0 x.
Proof.
  intros H. destruct (clamp100_spec x) as (y & E & M & _).
  exists y. split; [exact E|]. rewrite M.
  now rewrite (Q.min_r 100 x) by exact H.
Qed.

(** X6: ticks add up until the end of the scale: from a value [v] in
    [0,100], [n] ticks upward give [min(100, v + 2n)] and [n] ticks
    downward give [max(0, v - 2n)]; fifty ticks reach the end from
    anywhere. *)
Theorem wheel_ticks_accumulate (v : Q) (n : nat) (up down : number) :
  0 <= v <= 100 ->
  (up >? Fin 0)%js = false ->
  (down >? Fin 0)%js = true ->
  Nat.iter n (Knob.handleWheel up) (Fin v)
    =n= Fin (Qmin 100 (v + 2 * inject_Z (Z.of_nat n))) /\
  Nat.iter n (Knob.handleWheel down) (Fin v)
    =n= Fin (Qmax 0 (v - 2 * inject_Z (Z.of_nat n))).
Proof.
  intros [H0 H1] Hu Hd.
  assert (N : forall k, inject_Z (Z.of_nat (S k)) == inject_Z (Z.of_nat k) + 1).
  { intros k. rewrite Nat2Z.inj_succ. unfold Z.succ.
    now rewrite inject_Z_plus. }
  assert (P : forall k, 0 <= inject_Z (Z.of_nat k)).
  { intros k. change 0 with (inject_Z 0). rewrite <- Zle_Qle. lia. }
  split.
  - assert (G : exists y, Nat.iter n (Knob.handleWheel up) (Fin v) = Fin y
                          /\ y == Qmin 100 (v + 2 * inject_Z (Z.of_nat n))).
    { induction n as [|n (y & E & M)].
      - exists v. split; [reflexivity|]. simpl.
        rewrite Q.min_r; [ring | change (inject_Z 0) with 0; lra].
      - rewrite Nat.iter_succ, E, handleWheel_up by exact Hu.
        change (Fin y + Fin 2)%js with (Fin (y + 2)).
        pose proof (P n) as Pn. pose proof (N n) as Nn.
        set (m := inject_Z (Z.of_nat n)) in *.
        set (m' := inject_Z (Z.of_nat (S n))) in *.
        assert (Y : 0 <= y).
        { rewrite M. destruct (Q.min_spec 100 (v + 2 * m)) as [[A ->]|[A ->]]; lra. }
        destruct (clamp100_Qmin (y + 2)) as (z & Ez & Mz); [lra|].
        exists z. split; [exact Ez|]. rewrite Mz.
        destruct (Q.min_spec 100 (v + 2 * m)) as [[A B]|[A B]];
          rewrite B in M;
          destruct (Q.min_spec 100 (y + 2)) as [[A1 ->]|[A1 ->]];
          destruct (Q.min_spec 100 (v + 2 * m')) as [[A2 ->]|[A2 ->]];
          lra. }
    destruct G as (y & -> & M). exact M.
  - assert (G : exists y, Nat.iter n (Knob.handleWheel down) (Fin v) = Fin y
                          /\ y == Qmax 0 (v - 2 * inject_Z (Z.of_nat n))).
    { induction n as [|n (y & E & M)].
      - exists v. split; [reflexivity|]. simpl.
        rewrite Q.max_r; [ring | change (inject_Z 0) with 0; lra].
      - rewrite Nat.iter_succ, E, handleWheel_down by exact Hd.
        change (Fin y + Fin (-2))%js with (Fin (y + -2)).
        pose proof (P n) as Pn. pose proof (N n) as Nn.
        set (m := inject_Z (Z.of_nat n)) in *.
        set (m' := inject_Z (Z.of_nat (S n))) in *.
        assert (Y : y <= 100).
        { rewrite M. destruct (Q.max_spec 0 (v - 2 * m)) as [[A ->]|[A ->]]; lra. }
        destruct (clamp100_Qmax (y + -2)) as (z & Ez & Mz); [lra|].
        exists z. split; [exact Ez|]. rewrite Mz.
        destruct (Q.max_spec 0 (v - 2 * m)) as [[A B]|[A B]];
          rewrite B in M;
          destruct (Q.max_spec 0 (y + -2)) as [[A1 ->]|[A1 ->]];
          destruct (Q.max_spec 0 (v - 2 * m')) as [[A2 ->]|[A2 ->]];
          lra. }
    destruct G as (y & -> & M). exact M.
Qed.

Lemma wheel_ticks_accumulate_witness :
  Nat.iter 50 (Knob.handleWheel (Fin (-1))) (Fin 0.5)
    =n= Fin (Qmin 100 (0.5 + 2 * inject_Z (Z.of_nat 50))) /\
  Nat.iter 50 (Knob.handleWheel (Fin 1)) (Fin 0.5)
    =n= Fin (Qmax 0 (0.5 - 2 * inject_Z (Z.of_nat 50))).
Proof.
  apply (wheel_ticks_accumulate 0.5 50 (Fin (-1)) (Fin 1)).
  - split; vm_compute; congruence.
  - reflexivity.
  - reflexivity.
Defined.

End DragAndWheel.

(* ================================================================== *)
(** ** VerticalSlider: pointer position to value *)
(* ================================================================== *)

Section SliderProperties.

Lemma updateValue_fin (bottom height y : Q) :
  ~ height == 0 ->
  VerticalSlider.updateValue (Fin bottom) (Fin height) (Fin y)
    = clamp100 (Fin ((bottom - y) / height * 100)).
Proof.
  intros H. unfold VerticalSlider.updateValue.
  change (Fin bottom - Fin y)%js with (Fin (bottom - y)).
  now rewrite div_fin by exact H.
Qed.

(** X7: over a track of positive height the slider value is linear in the
    pointer position between the ends and saturates outside: 0 at the
    bottom edge and anywhere below it, 100 at the top edge and anywhere
    above it, [(bottom - y) / height * 100] in between. *)
Theorem slider_value (bottom height y : Q) :
  0 < height ->
  (bottom <= y ->
   VerticalSlider.updateValue (Fin bottom) (Fin height) (Fin y) = Fin 0) /\
  (y <= bottom - height ->
   VerticalSlider.updateValue (Fin bottom) (Fin height) (Fin y) = Fin 100) /\
  (bottom - height < y -> y < bottom ->
   VerticalSlider.updateValue (Fin bottom) (Fin height) (Fin y)
     = Fin ((bottom - y) / height * 100)).
Proof.
  intros Hh.
  assert (NZ : ~ height == 0) by (intros E; lra).
  rewrite updateValue_fin by exact NZ.
  assert (X : (bottom - y) / height * 100 * height == (bottom - y) * 100).
  { field. exact NZ. }
  set (x := (bottom - y) / height * 100) in *.
  split; [|split].
  - intros H. apply clamp100_low. nra.
  - intros H. apply clamp100_high. nra.
  - intros L U. apply clamp100_mid; nra.
Qed.

Lemma slider_value_witness :
  (300 <= 250 ->
   VerticalSlider.updateValue (Fin 300) (Fin 200) (Fin 250) = Fin 0) /\
  (250 <= 300 - 200 ->
   VerticalSlider.updateValue (Fin 300) (Fin 200) (Fin 250) = Fin 100) /\
  (300 - 200 < 250 -> 250 < 300 ->
   VerticalSlider.updateValue (Fin 300) (Fin 200) (Fin 250)
     = Fin ((300 - 250) / 200 * 100)).
Proof. apply (slider_value 300 200 250). reflexivity. Defined.

(** X8: a track of height zero is not guarded against.  The quotient is
    then infinite or undefined: a pointer above the track's line gives
    100, a pointer below it gives 0, and a pointer exactly on it gives
    [NaN], which is what [onChange] receives. *)
Theorem slider_zero_height (bottom height y : Q) :
  height == 0 ->
  (y < bottom ->
   VerticalSlider.updateValue (Fin bottom) (Fin height) (Fin y) = Fin 100) /\
  (bottom < y ->
   VerticalSlider.updateValue (Fin bottom) (Fin height) (Fin y) = Fin 0) /\
  (y == bottom ->
   VerticalSlider.updateValue (Fin bottom) (Fin height) (Fin y) = NaN).
Proof.
  intros Hh. unfold VerticalSlider.updateValue.
  change (Fin bottom - Fin y)%js with (Fin (bottom - y)).
  unfold div. rewrite is_zero_true by exact Hh.
  split; [|split]; intros H.
  - assert (C : (bottom - y ?= 0) = Gt) by (apply (proj1 (Qgt_alt _ _)); lra).
    now rewrite C.
  - assert (C : (bottom - y ?= 0) = Lt) by (apply (proj1 (Qlt_alt _ _)); lra).
    now rewrite C.
  - assert (C : (bottom - y ?= 0) = Eq) by (apply (proj1 (Qeq_alt _ _)); lra).
    now rewrite C.
Qed.

Lemma slider_zero_height_witness :
  (300 < 300 ->
   VerticalSlider.updateValue (Fin 300) (Fin 0) (Fin 300) = Fin 100) /\
  (300 < 300 ->
   VerticalSlider.updateValue (Fin 300) (Fin 0) (Fin 300) = Fin 0) /\
  (300 == 300 ->
   VerticalSlider.updateValue (Fin 300) (Fin 0) (Fin 300) = NaN).
Proof. apply (slider_zero_height 300 0 300). reflexivity. Defined.

End SliderProperties.

(* ================================================================== *)
(** ** App and the toggles: how updates compose *)
(* ================================================================== *)

Section StoreComposition.

Import App DialNavigation.

(** X9: updates compose as field writes should: a second write to the
    same key replaces the first, writes to different keys can be swapped,
    and writing back the value a field already has changes nothing. *)
Theorem updateControl_compose (k k' : ControlKey) (v v1 : fieldType k)
  (v' : fieldType k') (s : ControlState) :
  updateControl k v (updateControl k v1 s) = updateControl k v s /\
  (k <> k' ->
   updateControl k v (updateControl k' v' s)
   = updateControl k' v' (updateControl k v s)) /\
  updateControl k (get k s) s = s.
Proof.
  destruct s. split; [|split].
  - destruct k; reflexivity.
  - intros H. destruct k, k'; try reflexivity; congruence.
  - destruct k; reflexivity.
Qed.

Lemma updateControl_compose_witness :
  updateControl K_detailDepth (Fin 40)
    (updateControl K_viewMode breakdown initialControls)
  = updateControl K_viewMode breakdown
      (updateControl K_detailDepth (Fin 40) initialControls).
Proof.
  apply (updateControl_compose K_detailDepth K_viewMode (Fin 40) (Fin 0)
           breakdown initialControls).
  discriminate.
Defined.

(** X10: a click on the HERO VIEW switch turns [hero] into [breakdown]
    and [breakdown] into [hero]; a click on the META DATA switch negates
    [showMetadata]; either click leaves every other field alone, and two
    clicks on the same switch restore the controls exactly. *)
Theorem toggle_clicks (c : ControlState) :
  viewMode (clickHeroView c)
    = match viewMode c with hero => breakdown | breakdown => hero end /\
  showMetadata (clickMetaData c) = negb (showMetadata c) /\
  (forall k, k <> K_viewMode -> get k (clickHeroView c) = get k c) /\
  (forall k, k <> K_showMetadata -> get k (clickMetaData c) = get k c) /\
  clickHeroView (clickHeroView c) = c /\
  clickMetaData (clickMetaData c) = c /\
  clickHeroView (clickMetaData c) = clickMetaData (clickHeroView c).
Proof.
  destruct c as [a p s vm md dd tp].
  repeat split.
  - destruct vm; reflexivity.
  - intros k H. destruct k; try reflexivity; congruence.
  - intros k H. destruct k; try reflexivity; congruence.
  - destruct vm; reflexivity.
  - destruct md; reflexivity.
Qed.

Lemma toggle_clicks_witness :
  get K_detailDepth (clickHeroView initialControls)
    = get K_detailDepth initialControls /\
  get K_viewMode (clickMetaData initialControls)
    = get K_viewMode initialControls.
Proof.
  destruct (toggle_clicks initialControls) as (_ & _ & H & M & _).
  split; [apply H | apply M]; discriminate.
Defined.

(** A knob writes its own emphasis and nothing else: the other two
    emphasis values are not rescaled. *)
Lemma handleKnobChange_only_own (d : Discipline) (value : number)
  (c : ControlState) :
  let c' := handleKnobChange d value c in
  match d with
  | architecture =>
      architectureEmphasis c' = value /\
      productDesignEmphasis c' = productDesignEmphasis c /\
      softwareEmphasis c' = softwareEmphasis c
  | productDesign =>
      productDesignEmphasis c' = value /\
      architectureEmphasis c' = architectureEmphasis c /\
      softwareEmphasis c' = softwareEmphasis c
  | software =>
      softwareEmphasis c' = value /\
      architectureEmphasis c' = architectureEmphasis c /\
      productDesignEmphasis c' = productDesignEmphasis c
  end.
Proof. destruct d; repeat split. Qed.

End StoreComposition.

(* ================================================================== *)
(** ** DialNavigation: runs of navigation events *)
(* ================================================================== *)

Section NavigationRuns.

Import DialNavigation.

Lemma as_integer_sound (x : number) (z : Z) :
  as_integer x = Some z -> x =n= of_Z z.
Proof.
  destruct x as [a| | |]; simpl; try discriminate.
  destruct (Qeq_bool a (inject_Z (Qfloor a))) eqn:E; [|discriminate].
  intros [= <-]. now apply Qeq_bool_iff.
Qed.

Lemma validIndex_iff (len : nat) (x : number) :
  validIndex len x = true <->
  exists i, (0 <= i < Z.of_nat len)%Z /\ x =n= of_Z i.
Proof.
  unfold validIndex. split.
  - destruct (as_integer x) as [z|] eqn:E; [|discriminate].
    intros H. apply andb_true_iff in H. destruct H as [H1 H2].
    apply Z.leb_le in H1. apply Z.ltb_lt in H2.
    exists z. split; [lia | now apply as_integer_sound].
  - intros (i & Hi & E).
    rewrite (as_integer_eqn _ _ E), as_integer_of_Z.
    apply andb_true_iff. split; [apply Z.leb_le | apply Z.ltb_lt]; lia.
Qed.

Lemma gtb_zero_eqn (x y : number) :
  x =n= y -> (x >? Fin 0)%js = (y >? Fin 0)%js.
Proof.
  destruct x as [a| | |], y as [b| | |]; intros H; simpl in H;
    try tauto; try reflexivity.
  unfold gtb, ltb, Qlt_bool.
  now rewrite (Qleb_comp a b H 0 0 (Qeq_refl 0)).
Qed.

(** One wheel event, for an index known up to the representation of the
    number. *)
Lemma wheel_index (h : bool) (d : number) (len : nat) (s : App.State) (i : Z) :
  (0 <= i < Z.of_nat len)%Z ->
  App.activeProjectIndex s =n= of_Z i ->
  App.activeProjectIndex (wheel h d len s)
    =n= of_Z (if h then
                if (d >? Fin 0)%js then (i + 1) mod Z.of_nat len
                else Z.max 0 (i - 1)
              else i).
Proof.
  intros Hi E. unfold wheel, handleWheel.
  destruct h; [|exact E].
  destruct (d >? Fin 0)%js.
  - cbn [App.setActiveProjectIndex App.activeProjectIndex].
    rewrite (rem_eqn_l _ _ (of_nat len) (add_eqn_l _ _ (Fin 1) E)).
    rewrite (rem_eqn_l _ _ (of_nat len) (add_of_Z i 1)).
    rewrite <- Z.rem_mod_nonneg by lia.
    apply rem_of_Z. lia.
  - rewrite (gtb_zero_eqn _ _ E), gtb_of_Z_zero.
    destruct (0 <? i)%Z eqn:P.
    + apply Z.ltb_lt in P.
      cbn [App.setActiveProjectIndex App.activeProjectIndex].
      rewrite Z.max_r by lia.
      unfold sub. rewrite (add_eqn_l _ _ (- Fin 1)%js E).
      apply (add_of_Z i (-1)).
    + apply Z.ltb_ge in P. rewrite Z.max_l by lia.
      replace 0%Z with i by lia. exact E.
Qed.

(** X12: forward scrolling goes round: from index [i], [n] wheel events
    with [deltaY > 0] over the dial lead to index [(i + n) mod len], so
    as many events as there are projects lead back to [i]. *)
Theorem forward_scrolls_cycle (fwd : number) (len n : nat) (s : App.State)
  (i : Z) :
  (0 <= i < Z.of_nat len)%Z ->
  App.activeProjectIndex s =n= of_Z i ->
  (fwd >? Fin 0)%js = true ->
  App.activeProjectIndex (Nat.iter n (wheel true fwd len) s)
    =n= of_Z ((i + Z.of_nat n) mod Z.of_nat len) /\
  App.activeProjectIndex (Nat.iter len (wheel true fwd len) s) =n= of_Z i.
Proof.
  intros Hi E Hf.
  assert (G : forall m, App.activeProjectIndex (Nat.iter m (wheel true fwd len) s)
                        =n= of_Z ((i + Z.of_nat m) mod Z.of_nat len)).
  { induction m as [|m IH].
    - simpl. rewrite Z.add_0_r, Z.mod_small by lia. exact E.
    - rewrite Nat.iter_succ.
      rewrite (wheel_index true fwd len _ ((i + Z.of_nat m) mod Z.of_nat len)).
      + rewrite Hf, Z.add_mod_idemp_l by lia.
        replace (i + Z.of_nat m + 1)%Z with (i + Z.of_nat (S m))%Z by lia.
        reflexivity.
      + apply Z.mod_pos_bound. lia.
      + exact IH. }
  split; [apply G|].
  rewrite G.
  replace (i + Z.of_nat len)%Z with (i + 1 * Z.of_nat len)%Z by lia.
  rewrite Z.mod_add, Z.mod_small by lia. reflexivity.
Qed.

Lemma forward_scrolls_cycle_witness :
  App.activeProjectIndex
    (Nat.iter 9 (wheel true (Fin 100) 7) App.initialState)
    =n= of_Z ((0 + Z.of_nat 9) mod Z.of_nat 7) /\
  App.activeProjectIndex
    (Nat.iter 7 (wheel true (Fin 100) 7) App.initialState) =n= of_Z 0.
Proof.
  apply (forward_scrolls_cycle (Fin 100) 7 9 App.initialState 0).
  - simpl. lia.
  - reflexivity.
  - reflexivity.
Defined.

(** X13: backward scrolling stops at the first entry: from index [i],
    [n] wheel events with [deltaY > 0] false lead to index
    [max(0, i - n)]; once at 0 the index stays there. *)
Theorem backward_scrolls_stop (bwd : number) (len n : nat) (s : App.State)
  (i : Z) :
  (0 <= i < Z.of_nat len)%Z ->
  App.activeProjectIndex s =n= of_Z i ->
  (bwd >? Fin 0)%js = false ->
  App.activeProjectIndex (Nat.iter n (wheel true bwd len) s)
    =n= of_Z (Z.max 0 (i - Z.of_nat n)).
Proof.
  intros Hi E Hb. induction n as [|n IH].
  - simpl. rewrite Z.max_r by lia. now rewrite Z.sub_0_r.
  - rewrite Nat.iter_succ.
    rewrite (wheel_index true bwd len _ (Z.max 0 (i - Z.of_nat n))).
    + rewrite Hb. replace (Z.max 0 (Z.max 0 (i - Z.of_nat n) - 1))
        with (Z.max 0 (i - Z.of_nat (S n))) by lia.
      reflexivity.
    + lia.
    + exact IH.
Qed.

Lemma backward_scrolls_stop_witness :
  App.activeProjectIndex
    (Nat.iter 5 (wheel true (Fin (-100)) 7)
       (App.setActiveProjectIndex (Fin 3) App.initialState))
    =n= of_Z (Z.max 0 (3 - Z.of_nat 5)).
Proof.
  apply (backward_scrolls_stop (Fin (-100)) 7 5
           (App.setActiveProjectIndex (Fin 3) App.initialState) 3).
  - simpl. lia.
  - reflexivity.
  - reflexivity.
Defined.




End NavigationRuns.

Section DialGeometry.

Import DialNavigation.

(** X15: over the entries of a list of at least two projects the dial
    turns evenly and stays within a half turn: for a whole index [i] with
    [0 <= i <= total - 1] the rotation is [i * 180/(total-1) - 90], it
    lies between -90 and 90, and moving to the next index adds exactly
    [180/(total-1)]. *)
Theorem dial_rotation_bounds (i total : Z) :
  (2 <= total)%Z -> (0 <= i <= total - 1)%Z ->
  exists r,
    getDialRotation (of_Z i) (of_Z total) = Fin r /\
    r == inject_Z i * (180 / (inject_Z total - 1)) - 90 /\
    -90 <= r <= 90 /\
    getDialRotation (of_Z (i + 1)) (of_Z total)
      =n= Fin (r + 180 / (inject_Z total - 1)).
Proof.
  intros Ht Hi.
  assert (T : 1 <= inject_Z total - 1).
  { assert (A : inject_Z 2 <= inject_Z total) by (rewrite <- Zle_Qle; lia).
    change (inject_Z 2) with 2 in A. lra. }
  assert (I : 0 <= inject_Z i /\ inject_Z i <= inject_Z total - 1).
  { split.
    - change 0 with (inject_Z 0). rewrite <- Zle_Qle. lia.
    - assert (A : inject_Z i <= inject_Z (total + -1)) by (rewrite <- Zle_Qle; lia).
      rewrite inject_Z_plus in A. change (inject_Z (-1)) with (-1) in A. lra. }
  assert (S : 180 / (inject_Z total - 1) * (inject_Z total - 1) == 180).
  { field. lra. }
  unfold of_Z at 1. rewrite getDialRotation_fin by exact Ht.
  eexists. split; [reflexivity|].
  set (st := 180 / (inject_Z total - 1)) in *.
  set (t := inject_Z total - 1) in *.
  assert (P : 0 < st) by nra.
  split; [ring|]. split; [split; nra|].
  unfold of_Z at 1. rewrite getDialRotation_fin by exact Ht.
  fold t. fold st. simpl. rewrite inject_Z_plus. change (inject_Z 1) with 1.
  ring.
Qed.

Lemma dial_rotation_bounds_witness :
  exists r,
    getDialRotation (of_Z 2) (of_Z 7) = Fin r /\
    r == inject_Z 2 * (180 / (inject_Z 7 - 1)) - 90 /\
    -90 <= r <= 90 /\
    getDialRotation (of_Z (2 + 1)) (of_Z 7)
      =n= Fin (r + 180 / (inject_Z 7 - 1)).
Proof. apply (dial_rotation_bounds 2 7); lia. Defined.

End DialGeometry.

(* ================================================================== *)
(** ** ProjectContent: tiers, opacities, widths, badge and filter *)
(* ================================================================== *)

Section ContentProperties.

Import App ProjectContent.

Lemma geb_fin (a b : Q) : (Fin a >=? Fin b)%js = Qle_bool b a.
Proof.
  unfold geb, ltb, Qlt_bool. now rewrite negb_involutive.
Qed.

Lemma geb_weaken (x : number) (a b : Q) :
  b <= a -> (x >=? Fin a)%js = true -> (x >=? Fin b)%js = true.
Proof.
  intros H. destruct x as [q| | |]; try (intros; assumption || reflexivity).
  rewrite !geb_fin, !Qle_bool_iff. intros L. lra.
Qed.

(** X17: the detail tiers are nested, whatever number [detailDepth]
    holds: technical specifications imply process documentation, which
    implies the columns, which imply the overview; and when
    [detailDepth] is [NaN] nothing is shown.  The two sections that are
    hidden on the about page follow the same order. *)
Theorem detail_tiers_nested (c : ControlState) (p : Project) :
  (showSpecs c = true -> showProcessImages c = true) /\
  (showProcessImages c = true -> showColumns c = true) /\
  (showColumns c = true -> showOverview c = true) /\
  (specificationsShown p c = true -> processDocumentationShown p c = true) /\
  (detailDepth c = NaN ->
   showOverview c = false /\ showColumns c = false /\
   showProcessImages c = false /\ showSpecs c = false).
Proof.
  unfold showSpecs, showProcessImages, showColumns, showOverview,
    specificationsShown, processDocumentationShown.
  assert (S : (detailDepth c >=? Fin 80)%js = true ->
              (detailDepth c >=? Fin 60)%js = true).
  { apply geb_weaken. lra. }
  split; [exact S|].
  split; [apply geb_weaken; lra|].
  split; [apply geb_weaken; lra|].
  split.
  - unfold showSpecs, showProcessImages. intros H.
    apply andb_true_iff in H. destruct H as [H1 H2].
    apply andb_true_iff. split; [now apply S | exact H2].
  - intros ->. repeat split.
Qed.

Lemma detail_tiers_nested_witness :
  showProcessImages initialControls = true /\
  showColumns initialControls = true /\
  showOverview initialControls = true.
Proof.
  destruct (detail_tiers_nested initialControls (mkProject 1 "Project 1" project true))
    as (H1 & H2 & H3 & _).
  assert (P : showProcessImages initialControls = true) by (apply H1; reflexivity).
  split; [exact P|]. split; [exact (H2 P) | exact (H3 (H2 P))].
Defined.

Lemma opacity_fin (x : Q) :
  (Fin 0.4 + (Fin x / Fin 100) * Fin 0.6)%js = Fin (0.4 + x / 100 * 0.6).
Proof. reflexivity. Qed.

(** X18: for an emphasis value in [0,100] the opacity of its column text
    is [0.4 + 0.6 * value / 100], between 0.4 and 1; the opacity the
    column animates to is that number while the columns are shown and 0.2
    otherwise, so it always lies between 0.2 and 1. *)
Theorem column_opacity_bounds (c : ControlState) (a : Q) :
  architectureEmphasis c = Fin a -> 0 <= a <= 100 ->
  exists o w,
    archOpacity c = Fin o /\ o == 0.4 + 0.6 * a / 100 /\ 0.4 <= o <= 1 /\
    archColumnOpacity c = Fin w /\ 0.2 <= w <= 1 /\
    (showColumns c = true -> w = o) /\
    (showColumns c = false -> w = 0.2).
Proof.
  intros E [H0 H1]. unfold archColumnOpacity, archOpacity. rewrite E.
  rewrite opacity_fin.
  assert (B : 0.4 + a / 100 * 0.6 == 0.4 + a * (3 # 500)) by field.
  exists (0.4 + a / 100 * 0.6).
  destruct (showColumns c).
  - exists (0.4 + a / 100 * 0.6).
    repeat split; try congruence; try (rewrite B; lra). field.
  - exists 0.2.
    repeat split; try congruence; try (rewrite B; lra); try lra. field.
Qed.

Lemma column_opacity_bounds_witness :
  exists o w,
    archOpacity initialControls = Fin o /\ o == 0.4 + 0.6 * 33.33 / 100 /\
    0.4 <= o <= 1 /\
    archColumnOpacity initialControls = Fin w /\ 0.2 <= w <= 1 /\
    (showColumns initialControls = true -> w = o) /\
    (showColumns initialControls = false -> w = 0.2).
Proof.
  apply (column_opacity_bounds initialControls 33.33).
  - reflexivity.
  - split; vm_compute; congruence.
Defined.

Variables (vm : ViewMode) (md : bool) (dd tp : number).

Local Abbreviation emphasis a p s :=
  (mkControlState (Fin a) (Fin p) (Fin s) vm md dd tp).

Lemma widths_fin' (a p s : Q) :
  ~ a + p + s == 0 ->
  archWidth (emphasis a p s) = Fin (a / (a + p + s) * 100) /\
  prodWidth (emphasis a p s) = Fin (p / (a + p + s) * 100) /\
  softWidth (emphasis a p s) = Fin (s / (a + p + s) * 100).
Proof.
  intros NZ. unfold archWidth, prodWidth, softWidth, total.
  cbn [architectureEmphasis productDesignEmphasis softwareEmphasis].
  change (Fin a + Fin p + Fin s)%js with (Fin (a + p + s)).
  rewrite !div_fin by exact NZ. repeat split.
Qed.

(** X19: knobs at zero are allowed as long as one is not: for
    non-negative emphasis values with a positive sum, every width is a
    finite number between 0 and 100, the widths add up to 100, and a
    column whose knob is at zero gets width 0. *)
Theorem column_widths_nonnegative (a p s : Q) :
  0 <= a -> 0 <= p -> 0 <= s -> 0 < a + p + s ->
  let c := mkControlState (Fin a) (Fin p) (Fin s) vm md dd tp in
  exists wa wp ws,
    archWidth c = Fin wa /\ prodWidth c = Fin wp /\ softWidth c = Fin ws /\
    0 <= wa <= 100 /\ 0 <= wp <= 100 /\ 0 <= ws <= 100 /\
    wa + wp + ws == 100 /\
    (a == 0 -> wa == 0) /\ (p == 0 -> wp == 0) /\ (s == 0 -> ws == 0).
Proof.
  intros Ha Hp Hs Ht c.
  assert (NZ : ~ a + p + s == 0) by (intros E; lra).
  destruct (widths_fin' a p s NZ) as (Wa & Wp & Ws).
  exists (a / (a + p + s) * 100), (p / (a + p + s) * 100),
         (s / (a + p + s) * 100).
  split; [exact Wa|]. split; [exact Wp|]. split; [exact Ws|].
  assert (Xa : a / (a + p + s) * 100 * (a + p + s) == a * 100) by (field; exact NZ).
  assert (Xp : p / (a + p + s) * 100 * (a + p + s) == p * 100) by (field; exact NZ).
  assert (Xs : s / (a + p + s) * 100 * (a + p + s) == s * 100) by (field; exact NZ).
  set (wa := a / (a + p + s) * 100) in *.
  set (wp := p / (a + p + s) * 100) in *.
  set (ws := s / (a + p + s) * 100) in *.
  set (t := a + p + s) in *.
  assert (A0 : 0 <= wa) by nra. assert (P0 : 0 <= wp) by nra.
  assert (S0 : 0 <= ws) by nra.
  assert (Sum : wa + wp + ws == 100).
  { assert (Y : (wa + wp + ws) * t == 100 * t) by (unfold t at 2; nra).
    nra. }
  repeat split; try lra; intros Z; nra.
Qed.

(** X20: only the proportions of the three knobs matter: multiplying all
    three emphasis values by the same positive factor leaves every width
    as it was. *)
Theorem column_widths_scale (a p s k : Q) :
  0 < k -> ~ a + p + s == 0 ->
  archWidth (mkControlState (Fin (k * a)) (Fin (k * p)) (Fin (k * s)) vm md dd tp)
    =n= archWidth (mkControlState (Fin a) (Fin p) (Fin s) vm md dd tp) /\
  prodWidth (mkControlState (Fin (k * a)) (Fin (k * p)) (Fin (k * s)) vm md dd tp)
    =n= prodWidth (mkControlState (Fin a) (Fin p) (Fin s) vm md dd tp) /\
  softWidth (mkControlState (Fin (k * a)) (Fin (k * p)) (Fin (k * s)) vm md dd tp)
    =n= softWidth (mkControlState (Fin a) (Fin p) (Fin s) vm md dd tp).
Proof.
  intros Hk NZ.
  assert (NZ' : ~ k * a + k * p + k * s == 0).
  { intros E. apply NZ.
    assert (F : k * (a + p + s) == 0) by (rewrite <- E; ring).
    nra. }
  destruct (widths_fin' a p s NZ) as (Wa & Wp & Ws).
  destruct (widths_fin' (k * a) (k * p) (k * s) NZ') as (Ka & Kp & Ks).
  rewrite Wa, Wp, Ws, Ka, Kp, Ks.
  repeat split; simpl; field; split; (exact NZ || (intros E; apply NZ'; rewrite <- E; ring) || lra).
Qed.

End ContentProperties.

Section ContentExamples.

Import App ProjectContent.

Lemma column_widths_nonnegative_witness :
  let c := mkControlState (Fin 50) (Fin 0) (Fin 0) hero false
             (Fin 100) (Fin 100) in
  exists wa wp ws,
    archWidth c = Fin wa /\ prodWidth c = Fin wp /\ softWidth c = Fin ws /\
    0 <= wa <= 100 /\ 0 <= wp <= 100 /\ 0 <= ws <= 100 /\
    wa + wp + ws == 100 /\
    (50 == 0 -> wa == 0) /\ (0 == 0 -> wp == 0) /\ (0 == 0 -> ws == 0).
Proof.
  apply (column_widths_nonnegative hero false (Fin 100) (Fin 100) 50 0 0);
    vm_compute; congruence.
Defined.

Lemma column_widths_scale_witness :
  archWidth (mkControlState (Fin (2 * 10)) (Fin (2 * 20)) (Fin (2 * 30))
               hero false (Fin 100) (Fin 100))
    =n= archWidth (mkControlState (Fin 10) (Fin 20) (Fin 30)
                     hero false (Fin 100) (Fin 100)) /\
  prodWidth (mkControlState (Fin (2 * 10)) (Fin (2 * 20)) (Fin (2 * 30))
               hero false (Fin 100) (Fin 100))
    =n= prodWidth (mkControlState (Fin 10) (Fin 20) (Fin 30)
                     hero false (Fin 100) (Fin 100)) /\
  softWidth (mkControlState (Fin (2 * 10)) (Fin (2 * 20)) (Fin (2 * 30))
               hero false (Fin 100) (Fin 100))
    =n= softWidth (mkControlState (Fin 10) (Fin 20) (Fin 30)
                     hero false (Fin 100) (Fin 100)).
Proof.
  apply (column_widths_scale hero false (Fin 100) (Fin 100) 10 20 30 2);
    vm_compute; congruence.
Defined.

Lemma strict_eqb_fin_100 (v : Q) :
  (Fin v === Fin 100)%js = true <-> v == 100.
Proof. apply Qeq_bool_iff. Qed.

(** X21: the stage badge.  A project without a timeline never shows it.
    For a project with a timeline and a progress [v] in [0,100], the
    badge is absent exactly at [v = 100] and otherwise reads [STAGE: ]
    followed by the stage of [v]; so FINAL is on screen only for
    [80 <= v < 100], and the initial progress of 100 shows no badge. *)
Theorem stage_badge (p : Project) (c : ControlState) (v : Q) :
  timelineProgress c = Fin v -> 0 <= v <= 100 ->
  (hasTimeline p = false -> stageIndicator p c = None) /\
  (hasTimeline p = true -> v == 100 -> stageIndicator p c = None) /\
  (hasTimeline p = true -> v < 100 ->
   stageIndicator p c = Some ("STAGE: " ++ getTimelineStage c)%string) /\
  (hasTimeline p = true ->
   (stageIndicator p c = Some "STAGE: FINAL"%string <-> 80 <= v /\ v < 100)).
Proof.
  intros E [H0 H1]. unfold stageIndicator. rewrite E.
  assert (F : v < 100 ->
              getTimelineStage c = "FINAL"%string <-> 80 <= v).
  { intros L. rewrite (getTimelineStage_fin c v E).
    destruct (Qlt_le_dec v 20); [rewrite Qlt_bool_true by lra | rewrite Qlt_bool_false by lra].
    { split; [discriminate | lra]. }
    destruct (Qlt_le_dec v 40); [rewrite Qlt_bool_true by lra | rewrite Qlt_bool_false by lra].
    { split; [discriminate | lra]. }
    destruct (Qlt_le_dec v 60); [rewrite Qlt_bool_true by lra | rewrite Qlt_bool_false by lra].
    { split; [discriminate | lra]. }
    destruct (Qlt_le_dec v 80); [rewrite Qlt_bool_true by lra | rewrite Qlt_bool_false by lra].
    { split; [discriminate | lra]. }
    split; [intros _; assumption | reflexivity]. }
  split; [intros ->; reflexivity|].
  split; [|split].
  - intros -> Hv. apply strict_eqb_fin_100 in Hv. now rewrite Hv.
  - intros -> Hv.
    destruct (Fin v === Fin 100)%js eqn:S; [|reflexivity].
    apply strict_eqb_fin_100 in S. lra.
  - intros ->.
    destruct (Fin v === Fin 100)%js eqn:S; cbn [andb negb].
    + apply strict_eqb_fin_100 in S. split; [discriminate | lra].
    + assert (L : v < 100).
      { destruct (Qlt_le_dec v 100) as [A|A]; [exact A|].
        assert (B : v == 100) by lra.
        apply strict_eqb_fin_100 in B. congruence. }
      split.
      * intros [= G]. split; [now apply F | exact L].
      * intros [G _]. f_equal. apply (F L) in G. now rewrite G.
Qed.

Lemma stage_badge_witness :
  stageIndicator (mkProject 1 "Project 1" project true) initialControls = None /\
  stageIndicator (mkProject 0 "About Me" about false) initialControls = None.
Proof.
  destruct (stage_badge (mkProject 1 "Project 1" project true)
              initialControls 100) as (_ & A & _).
  { reflexivity. }
  { split; vm_compute; congruence. }
  destruct (stage_badge (mkProject 0 "About Me" about false)
              initialControls 100) as (B & _).
  { reflexivity. }
  { split; vm_compute; congruence. }
  split; [apply A | apply B]; reflexivity.
Defined.

(** X22: the image filter.  Without a timeline there is none.  With a
    timeline and a progress [v] in [0,100] the grayscale amount is
    [(100 - v) / 100], between 0 and 1, the brightness is
    [0.8 + 0.2 * v / 100], between 0.8 and 1, and the two are tied by
    [brightness = 1 - 0.2 * grayscale]: full progress is full colour at
    full brightness. *)
Theorem image_filter_bounds (p : Project) (c : ControlState) (v : Q) :
  timelineProgress c = Fin v -> 0 <= v <= 100 ->
  (hasTimeline p = false -> imageFilter p c = None) /\
  (hasTimeline p = true ->
   exists g b,
     imageFilter p c = Some (Fin g, Fin b) /\
     g == (100 - v) / 100 /\ 0 <= g <= 1 /\
     0.8 <= b <= 1 /\ b == 1 - 0.2 * g /\
     (v == 100 -> g == 0 /\ b == 1)).
Proof.
  intros E [H0 H1]. unfold imageFilter. rewrite E.
  split; [intros ->; reflexivity|].
  intros ->.
  exists ((100 - v) / 100), (0.8 + v / 100 * 0.2).
  split; [reflexivity|].
  assert (G : (100 - v) / 100 == 1 - v * (1 # 100)) by field.
  assert (B : 0.8 + v / 100 * 0.2 == 0.8 + v * (1 # 500)) by field.
  rewrite G, B.
  repeat split; try lra.
Qed.

Lemma image_filter_bounds_witness :
  exists g b,
    imageFilter (mkProject 1 "Project 1" project true) initialControls
      = Some (Fin g, Fin b) /\
    g == (100 - 100) / 100 /\ 0 <= g <= 1 /\
    0.8 <= b <= 1 /\ b == 1 - 0.2 * g /\
    (100 == 100 -> g == 0 /\ b == 1).
Proof.
  destruct (image_filter_bounds (mkProject 1 "Project 1" project true)
              initialControls 100) as (_ & A).
  { reflexivity. }
  { split; vm_compute; congruence. }
  apply A. reflexivity.
Defined.

End ContentExamples.

(* ================================================================== *)
(** ** The LCD: readouts on show, runs of events *)
(* ================================================================== *)

Section ScreenProperties.

Import DisplayScreen.

Lemma append_percent_nonempty (t : string) :
  String.eqb (t ++ "%") "" = false.
Proof. destruct t; reflexivity. Qed.

Lemma round_fin (v : Q) : Math.round (Fin v) = of_Z (Qfloor (v + (1 # 2))).
Proof. reflexivity. Qed.

(** X16: touching a knob whose value [v] lies in [0,100] puts on the LCD
    the short name of its discipline and, below it, the nearest whole
    percentage [k] (halves upward, [0 <= k <= 100]) followed by a percent
    sign; this takes precedence over the project code and over the idle
    cycle, whatever the state of the screen. *)
Theorem knob_readout_on_screen (d : DialNavigation.Discipline) (v : Q)
  (p : Props) (s : State) :
  0 <= v <= 100 ->
  let r := DialNavigation.handleKnobInteraction d (Fin v) true in
  activeControl p = DialNavigation.activeControl r ->
  controlValue p = DialNavigation.controlValue r ->
  exists k : Z,
    (0 <= k <= 100)%Z /\
    inject_Z k <= v + (1 # 2) /\ v + (1 # 2) < inject_Z k + 1 /\
    getDisplayContent p s
      = Some (mkContent (DialNavigation.disciplineNames d)
                (NilZero.string_of_int (Z.to_int k) ++ "%")).
Proof.
  intros [H0 H1] r Ha Hc.
  exists (Qfloor (v + (1 # 2))).
  pose proof (Qfloor_le (v + (1 # 2))) as L.
  pose proof (Qlt_floor (v + (1 # 2))) as U.
  rewrite inject_Z_plus in U. change (inject_Z 1) with 1 in U.
  set (k := Qfloor (v + (1 # 2))) in *.
  assert (K0 : (-1 < k)%Z).
  { rewrite Zlt_Qlt. change (inject_Z (-1)) with (-1). lra. }
  assert (K1 : (k < 101)%Z).
  { rewrite Zlt_Qlt. change (inject_Z 101) with 101. lra. }
  split; [lia|]. split; [exact L|]. split; [exact U|].
  unfold getDisplayContent. rewrite Ha, Hc. unfold r.
  cbn [DialNavigation.handleKnobInteraction DialNavigation.activeControl
       DialNavigation.controlValue].
  rewrite round_fin, toString_of_Z. fold k.
  cbn [truthy]. rewrite append_percent_nonempty.
  destruct d; reflexivity.
Qed.

Lemma knob_readout_on_screen_witness :
  exists k : Z,
    (0 <= k <= 100)%Z /\
    inject_Z k <= 33.5 + (1 # 2) /\ 33.5 + (1 # 2) < inject_Z k + 1 /\
    getDisplayContent
      (mkProps (Fin 2) "Project 2" (Some "SOFT"%string) (Some "34%"%string) None)
      (mkState true (Fin 1))
      = Some (mkContent (DialNavigation.disciplineNames DialNavigation.software)
                (NilZero.string_of_int (Z.to_int k) ++ "%")).
Proof.
  apply (knob_readout_on_screen DialNavigation.software 33.5
           (mkProps (Fin 2) "Project 2" (Some "SOFT"%string)
              (Some "34%"%string) None)
           (mkState true (Fin 1))).
  - split; vm_compute; congruence.
  - reflexivity.
  - reflexivity.
Defined.

Lemma step_keeps_cycle_in_range (p : Props) (e : Event) (s : State) :
  validIndex 3 (idleCycle s) = true ->
  validIndex 3 (idleCycle (step p e s)) = true.
Proof.
  intros V. destruct e; unfold step.
  - destruct (truthy (activeControl p)); exact V.
  - destruct (truthy (activeControl p)); exact V.
  - destruct (idleMode s) eqn:M; [|exact V].
    apply validIndex_iff in V. destruct V as (c & Hc & E).
    destruct (tick_advances p s c M E) as [_ T]; [simpl in Hc; lia|].
    unfold step in T. rewrite M in T.
    apply validIndex_iff. exists ((c + 1) mod 3)%Z. split; [|exact T].
    simpl. pose proof (Z.mod_pos_bound (c + 1) 3). lia.
Qed.

Lemma getDisplayContent_defined (p : Props) (s : State) :
  validIndex 3 (idleCycle s) = true ->
  exists content, getDisplayContent p s = Some content.
Proof.
  intros V. unfold getDisplayContent.
  destruct (truthy (activeControl p) && truthy (controlValue p)) eqn:T.
  - apply andb_true_iff in T. destruct T as [Ta Tv].
    destruct (activeControl p); [|discriminate].
    destruct (controlValue p); [|discriminate].
    eexists. reflexivity.
  - destruct (idleMode s); cbn [negb]; [|eexists; reflexivity].
    destruct (disciplineValues p) as [dv|]; [|eexists; reflexivity].
    apply validIndex_iff in V. destruct V as (c & Hc & E).
    rewrite (index_eqn _ _ _ E), index_of_Z by lia.
    simpl in Hc.
    assert (C : c = 0%Z \/ c = 1%Z \/ c = 2%Z) by lia.
    destruct C as [-> | [-> | ->]]; eexists; reflexivity.
Qed.

(** X23: the LCD always has something to show.  After any run of events
    from the initial state - effects, timeouts and ticks in any order,
    under any props - the cycle index is 0, 1 or 2, and
    [getDisplayContent] returns a pair of lines for whatever props it is
    rendered with: reading [name] of [undefined] does not happen. *)
Theorem screen_always_defined
  (trace : list (Props * Event)) (p : Props) :
  let s := runScreen trace initialState in
  validIndex 3 (idleCycle s) = true /\
  exists content, getDisplayContent p s = Some content.
Proof.
  intros s.
  assert (V : validIndex 3 (idleCycle s) = true).
  { subst s. unfold runScreen.
    assert (G : forall st, validIndex 3 (idleCycle st) = true ->
              validIndex 3 (idleCycle
                (fold_left (fun st pe => step (fst pe) (snd pe) st) trace st))
              = true).
    { induction trace as [|[q e] tr IH]; intros st H; [exact H|].
      simpl. apply IH. now apply step_keeps_cycle_in_range. }
    apply G. reflexivity. }
  split; [exact V | now apply getDisplayContent_defined].
Qed.

(** X24: the idle cycle does not start over.  If the screen is left by
    an interaction and falls idle again, the cycle index is the one it
    had: the first discipline shown is the one the cycle had reached, and
    idle mode is entered by the timeout alone, only while no control is
    active. *)
Theorem idle_cycle_resumes (active quiet : Props) (s : State) :
  truthy (activeControl active) = true ->
  truthy (activeControl quiet) = false ->
  let touched := step active ActiveControlEffect s in
  let released := step quiet ActiveControlEffect touched in
  let idle := step quiet IdleTimeout released in
  idleMode touched = false /\
  step active IdleTimeout touched = touched /\
  idleMode released = false /\
  idleMode idle = true /\
  idleCycle idle = idleCycle s /\
  getDisplayContent quiet idle = getDisplayContent quiet (mkState true (idleCycle s)).
Proof.
  intros Ha Hq touched released idle.
  unfold idle, released, touched, step. rewrite Ha, Hq.
  repeat split.
Qed.

Lemma idle_cycle_resumes_witness :
  let active := mkProps (Fin 0) "About Me" (Some "ARCH"%string)
                  (Some "33%"%string) None in
  let quiet := mkProps (Fin 0) "About Me" None None None in
  let s := mkState true (Fin 2) in
  let touched := step active ActiveControlEffect s in
  let released := step quiet ActiveControlEffect touched in
  let idle := step quiet IdleTimeout released in
  idleMode touched = false /\
  step active IdleTimeout touched = touched /\
  idleMode released = false /\
  idleMode idle = true /\
  idleCycle idle = idleCycle s /\
  getDisplayContent quiet idle = getDisplayContent quiet (mkState true (idleCycle s)).
Proof.
  apply (idle_cycle_resumes
           (mkProps (Fin 0) "About Me" (Some "ARCH"%string) (Some "33%"%string) None)
           (mkProps (Fin 0) "About Me" None None None)
           (mkState true (Fin 2))); reflexivity.
Defined.

(** X25: a slider value outside the scale has no stage.  For a timeline
    value below 0, from 125 upward, or [NaN], the index computed by the
    slider handler is outside [stages], [controlValue] is [undefined],
    and the LCD, finding no value to show, keeps the project code (when
    not idle) although the control is active. *)
Theorem stage_readout_off_scale (x : number) (p : Props) (s : State) :
  (x = NaN \/ exists v, x = Fin v /\ (v < 0 \/ 125 <= v)) ->
  let r := DialNavigation.handleSliderInteraction "STAGE" x true in
  DialNavigation.activeControl r = Some "STAGE"%string /\
  DialNavigation.controlValue r = None /\
  (activeControl p = DialNavigation.activeControl r ->
   controlValue p = DialNavigation.controlValue r ->
   idleMode s = false ->
   getDisplayContent p s = Some (projectCode p)).
Proof.
  intros Hx r.
  assert (N : DialNavigation.controlValue r = None).
  { unfold r, DialNavigation.handleSliderInteraction.
    simpl String.eqb. cbv iota. cbn [DialNavigation.controlValue].
    destruct Hx as [-> | (v & -> & Hv)]; [reflexivity|].
    rewrite stageIndex_fin.
    assert (E : v / 100 * (inject_Z 5 - 1) == v * (1 # 25)).
    { change (inject_Z 5) with 5. field. }
    rewrite (Qfloor_comp _ _ E).
    pose proof (Qfloor_le (v * (1 # 25))) as L.
    pose proof (Qlt_floor (v * (1 # 25))) as U.
    rewrite inject_Z_plus in U. change (inject_Z 1) with 1 in U.
    set (k := Qfloor (v * (1 # 25))) in *.
    unfold index. rewrite as_integer_of_Z.
    destruct Hv as [Hv | Hv].
    - assert (K : (k < 0)%Z).
      { rewrite Zlt_Qlt. change (inject_Z 0) with 0. lra. }
      apply Z.ltb_lt in K. now rewrite K.
    - assert (K : (4 < k)%Z).
      { rewrite Zlt_Qlt. change (inject_Z 4) with 4. lra. }
      destruct (k <? 0)%Z; [reflexivity|].
      apply nth_error_None. simpl. lia. }
  split; [reflexivity|]. split; [exact N|].
  intros Ha Hc Hm. unfold getDisplayContent.
  rewrite Hc, N, Hm. cbn [truthy]. now rewrite andb_false_r.
Qed.

Lemma stage_readout_off_scale_witness :
  let p := mkProps (Fin 1) "Project 1" (Some "STAGE"%string) None None in
  let r := DialNavigation.handleSliderInteraction "STAGE" NaN true in
  DialNavigation.activeControl r = Some "STAGE"%string /\
  DialNavigation.controlValue r = None /\
  (activeControl p = DialNavigation.activeControl r ->
   controlValue p = DialNavigation.controlValue r ->
   idleMode initialState = false ->
   getDisplayContent p initialState = Some (projectCode p)).
Proof.
  apply (stage_readout_off_scale NaN
           (mkProps (Fin 1) "Project 1" (Some "STAGE"%string) None None)
           initialState).
  left. reflexivity.
Defined.

End ScreenProperties.

Section ReleaseProperties.

Import DisplayScreen.

Lemma toString_eqn_of_Z (x : number) (i : Z) :
  x =n= of_Z i -> toString x = NilZero.string_of_int (Z.to_int i).
Proof.
  destruct x as [a| | |]; simpl; try tauto.
  intros H. now rewrite (Qfloor_comp _ _ H), Qfloor_Z.
Qed.

Lemma strict_eqb_zero_eqn (x : number) (i : Z) :
  x =n= of_Z i -> (x === Fin 0)%js = (i =? 0)%Z.
Proof.
  destruct x as [a| | |]; simpl; try tauto.
  intros H. rewrite (Qeqb_comp _ _ H 0 0 (Qeq_refl 0)).
  destruct (i =? 0)%Z eqn:E.
  - apply Z.eqb_eq in E. subst i. reflexivity.
  - apply Z.eqb_neq in E.
    destruct (Qeq_bool (inject_Z i) 0) eqn:F; [|reflexivity].
    apply Qeq_bool_iff in F. unfold Qeq in F. simpl in F. lia.
Qed.

(** X11: letting go of a knob or a slider clears the readout at once, and
    the LCD, until it falls idle, shows the code of the active project on
    its first line and nothing on the second: [AM] for index 0, and for a
    whole index [i >= 1] the digit 0 followed by [i] in decimal. *)
Theorem release_shows_project_code (d : DialNavigation.Discipline)
  (label : string) (value : number) (p : Props) (s : State) (i : Z) :
  DialNavigation.handleKnobInteraction d value false
    = DialNavigation.mkReadout None None /\
  DialNavigation.handleSliderInteraction label value false
    = DialNavigation.mkReadout None None /\
  (activeControl p = None -> controlValue p = None ->
   idleMode s = false ->
   currentProjectIndex p =n= of_Z i ->
   getDisplayContent p s
     = Some (mkContent
               (if (i =? 0)%Z then "AM"
                else "0" ++ NilZero.string_of_int (Z.to_int i))
               "")).
Proof.
  split; [reflexivity|]. split; [reflexivity|].
  intros Ha Hc Hm Hi. unfold getDisplayContent, projectCode.
  rewrite Ha, Hc, Hm. cbn [truthy andb negb].
  rewrite (strict_eqb_zero_eqn _ _ Hi).
  destruct (i =? 0)%Z; [reflexivity|].
  now rewrite (toString_eqn_of_Z _ _ Hi).
Qed.

Lemma release_shows_project_code_witness :
  getDisplayContent (mkProps (Fin 4) "Project 4" None None None) initialState
  = Some (mkContent
            (if (4 =? 0)%Z then "AM"
             else "0" ++ NilZero.string_of_int (Z.to_int 4))
            "").
Proof.
  apply (release_shows_project_code DialNavigation.architecture "DETAIL"
           (Fin 10) (mkProps (Fin 4) "Project 4" None None None)
           initialState 4); reflexivity.
Defined.

Example project_codes :
  map (fun i => option_map line1
         (getDisplayContent (mkProps (of_Z i) "" None None None) initialState))
      [0; 1; 6; 10]%Z
  = [Some "AM"; Some "01"; Some "06"; Some "010"]%string.
Proof. vm_compute. reflexivity. Qed.

End ReleaseProperties.
